(** * Secure RAG Researcher: a shallow embedding of [main.py]

    The development follows the class [SecureRAGResearcher] of [main.py]:
    the constructor and its environment validation, the vector-store reuse
    policy of [create_vectorstore], the QA-chain guard of [query], and the
    pattern scanner [scan_for_secrets] together with the part of Python's
    [re] module that the seven patterns of the scanner exercise.  Parts III
    and IV add the script [main] of [main.py] and the steps of [setup.py].

    Conventions.
    - A Python [str] is the sequence of its code points.  The text alphabet
      of this development is U+0000..U+00FF, one [ascii] per code point
      (so "223" is the single character U+00DF, not a UTF-8 byte).
    - Objects of external classes (FAISS stores, embeddings) are opaque
      handles; calls that leave the program are recorded in a trace.
    - [print] calls are not modelled. *)

From Stdlib Require Import Ascii ZArith QArith Lia.
From Stdlib Require String.
From stdpp Require Import base strings gmap list sorting.

Open Scope nat_scope.

(* ================================================================== *)
(** * Part I.  Definitions *)
(* ================================================================== *)

(** ** Characters *)

Definition code (c : ascii) : nat := nat_of_ascii c.

Definition in_range (lo hi c : ascii) : bool :=
  (code lo <=? code c) && (code c <=? code hi).

Definition to_lower (c : ascii) : ascii :=
  if in_range "A" "Z" c then ascii_of_nat (code c + 32) else c.

Definition to_upper (c : ascii) : ascii :=
  if in_range "a" "z" c then ascii_of_nat (code c - 32) else c.

(** [\d] on a [str] pattern: the decimal digits; below U+0100 these are
    "0".."9". *)
Definition is_digit (c : ascii) : bool := in_range "0" "9" c.

(** [\s] on a [str] pattern: [str.isspace]; below U+0100 these are
    U+0009..U+000D, U+001C..U+001F, U+0020, U+0085 and U+00A0. *)
Definition is_space (c : ascii) : bool :=
  let n := code c in
  ((9 <=? n) && (n <=? 13)) || ((28 <=? n) && (n <=? 32))
  || (n =? 133) || (n =? 160).

(** [\w] on a [str] pattern: [str.isalnum] or the underscore.  Below U+0100
    the alphanumerics are the ASCII letters and digits, U+00AA, U+00B2,
    U+00B3, U+00B5, U+00B9, U+00BA, U+00BC..U+00BE, U+00C0..U+00D6,
    U+00D8..U+00F6 and U+00F8..U+00FF. *)
Definition is_word (c : ascii) : bool :=
  let n := code c in
  is_digit c || in_range "A" "Z" c || in_range "a" "z" c || (n =? 95)
  || (n =? 170) || (n =? 178) || (n =? 179) || (n =? 181) || (n =? 185)
  || (n =? 186) || ((188 <=? n) && (n <=? 190))
  || ((192 <=? n) && (n <=? 214)) || ((216 <=? n) && (n <=? 246))
  || ((248 <=? n) && (n <=? 255)).

(** ** Regular expressions

    The abstract syntax covers what the scanner's patterns use: literals,
    bracket sets with ranges and the [\d] and [\s] escapes, the word boundary
    [\b], concatenation, alternation, greedy counted repetition
    ([?], [+], [{m}], [{m,}], [{m,n}]) and one capturing group.  Literals and
    range bounds of a pattern are ASCII. *)

Inductive cset_item : Type :=
  | CChar (c : ascii)
  | CRange (lo hi : ascii)
  | CDigit
  | CSpace.

Inductive regex : Type :=
  | Eps
  | Chr (c : ascii)
  | CSet (items : list cset_item)
  | Bound
  | Cat (r1 r2 : regex)
  | Alt (r1 r2 : regex)
  | Rep (lo : nat) (hi : option nat) (r : regex)
  | Group (r : regex).

Declare Scope regex_scope.
Delimit Scope regex_scope with re.
Bind Scope regex_scope with regex.
Notation "r1 ⋅ r2" := (Cat r1 r2) (at level 40, left associativity) : regex_scope.
Notation "r1 ∣ r2" := (Alt r1 r2) (at level 50, left associativity) : regex_scope.

Fixpoint lit (s : string) : regex :=
  match s with
  | EmptyString => Eps
  | String c s' => Cat (Chr c) (lit s')
  end.

Definition digit : regex := CSet [CDigit].
Definition opt (r : regex) : regex := Rep 0 (Some 1) r.
Definition plus (r : regex) : regex := Rep 1 None r.
Definition exactly (n : nat) (r : regex) : regex := Rep n (Some n) r.
Definition at_least (n : nat) (r : regex) : regex := Rep n None r.

(** Does a text character belong to a set item?  With [re.IGNORECASE] the
    character is lower-cased and compared, and a range also accepts the
    upper-case form of the lowered character. *)
Definition item_matches (ignorecase : bool) (it : cset_item) (c : ascii) : bool :=
  match it with
  | CChar p =>
      if ignorecase then bool_decide (to_lower c = to_lower p)
      else bool_decide (c = p)
  | CRange lo hi =>
      if ignorecase
      then in_range lo hi (to_lower c) || in_range lo hi (to_upper (to_lower c))
      else in_range lo hi c
  | CDigit => is_digit c
  | CSpace => is_space c
  end.

(** The state of a match in progress: the character just before the current
    position (for [\b]), the text still to be read, and the text captured by
    the group, if it has taken part. *)
Record mstate : Type := MState {
  prev : option ascii;
  rest : list ascii;
  cap : option (list ascii)
}.

Definition word_before (st : mstate) : bool :=
  match prev st with Some c => is_word c | None => false end.

Definition word_after (st : mstate) : bool :=
  match rest st with c :: _ => is_word c | [] => false end.

Definition eat (p : ascii → bool) (st : mstate) : list mstate :=
  match rest st with
  | c :: s' => if p c then [MState (Some c) s' (cap st)] else []
  | [] => []
  end.

Definition progressed (st st' : mstate) : bool :=
  length (rest st') <? length (rest st).

(** Greedy counted repetition of [step]: one more round is tried first, then
    leaving the loop (allowed once the lower bound is met).  A round past the
    lower bound must consume text. *)
Fixpoint rep_match (step : mstate → list mstate) (fuel lo : nat)
    (hi : option nat) (st : mstate) : list mstate :=
  let leave := if lo =? 0 then [st] else [] in
  match fuel with
  | O => leave
  | S fuel' =>
      let round :=
        match hi with
        | Some O => []
        | _ =>
            let nexts :=
              if lo =? 0 then filter (λ st', progressed st st') (step st)
              else step st in
            flat_map (rep_match step fuel' (pred lo) (pred <$> hi)) nexts
        end in
      round ++ leave
  end.

Definition captured (st st' : mstate) : list ascii :=
  take (length (rest st) - length (rest st')) (rest st).

(** All the ways [r] matches at the current position, most preferred first
    (the order in which a backtracking matcher tries them). *)
Fixpoint rmatch (ignorecase : bool) (r : regex) (st : mstate) : list mstate :=
  match r with
  | Eps => [st]
  | Chr p => eat (item_matches ignorecase (CChar p)) st
  | CSet items => eat (λ c, existsb (λ it, item_matches ignorecase it c) items) st
  | Bound => if xorb (word_before st) (word_after st) then [st] else []
  | Cat r1 r2 => flat_map (rmatch ignorecase r2) (rmatch ignorecase r1 st)
  | Alt r1 r2 => rmatch ignorecase r1 st ++ rmatch ignorecase r2 st
  | Rep lo hi r1 =>
      rep_match (rmatch ignorecase r1) (lo + length (rest st) + 1) lo hi st
  | Group r1 =>
      (λ st', MState (prev st') (rest st') (Some (captured st st')))
        <$> rmatch ignorecase r1 st
  end.

Fixpoint has_group (r : regex) : bool :=
  match r with
  | Group _ => true
  | Cat r1 r2 | Alt r1 r2 => has_group r1 || has_group r2
  | Rep _ _ r1 => has_group r1
  | _ => false
  end.

(** What [re.findall] reports for a match: the group when the pattern has
    one (the empty string when the group did not take part), the whole match
    otherwise. *)
Definition report (r : regex) (st st' : mstate) : list ascii :=
  if has_group r then default [] (cap st') else captured st st'.

(** [re.findall]: scan from the left, take the preferred match at the first
    position that has one, report it and go on after it (one character
    further after an empty match). *)
Fixpoint findall_from (ignorecase : bool) (r : regex) (fuel : nat)
    (p : option ascii) (s : list ascii) : list (list ascii) :=
  match fuel with
  | O => []
  | S fuel' =>
      let st := MState p s None in
      let step :=
        match s with
        | c :: s' => findall_from ignorecase r fuel' (Some c) s'
        | [] => []
        end in
      match rmatch ignorecase r st with
      | st' :: _ =>
          report r st st' ::
            (if progressed st st'
             then findall_from ignorecase r fuel' (prev st') (rest st')
             else step)
      | [] => step
      end
  end.

Definition re_findall (r : regex) (ignorecase : bool) (s : string) : list string :=
  let cs := String.list_ascii_of_string s in
  String.string_of_list_ascii <$> findall_from ignorecase r (S (length cs)) None cs.

(** ** The pattern registry of [scan_for_secrets]

    [patterns] is the dictionary of [scan_for_secrets], in insertion order
    (the order [patterns.items()] yields).  Each entry gives the source
    pattern and its syntax tree. *)

Section Registry.
Local Open Scope regex_scope.

(** [\b[A-Za-z0-9._%+-]+@[A-Za-z0-9.-]+\.[A-Z|a-z]{2,}\b] *)
Definition email_re : regex :=
  Bound
  ⋅ plus (CSet [CRange "A" "Z"; CRange "a" "z"; CRange "0" "9"; CChar ".";
                CChar "_"; CChar "%"; CChar "+"; CChar "-"])
  ⋅ Chr "@"
  ⋅ plus (CSet [CRange "A" "Z"; CRange "a" "z"; CRange "0" "9"; CChar ".";
                CChar "-"])
  ⋅ Chr "."
  ⋅ at_least 2 (CSet [CRange "A" "Z"; CChar "|"; CRange "a" "z"])
  ⋅ Bound.

(** [\b\d{3}-\d{2}-\d{4}\b] *)
Definition ssn_re : regex :=
  Bound ⋅ exactly 3 digit ⋅ Chr "-" ⋅ exactly 2 digit ⋅ Chr "-"
  ⋅ exactly 4 digit ⋅ Bound.

(** [\b\d{4}[\s-]?\d{4}[\s-]?\d{4}[\s-]?\d{4}\b] *)
Definition credit_card_re : regex :=
  Bound ⋅ exactly 4 digit ⋅ opt (CSet [CSpace; CChar "-"])
  ⋅ exactly 4 digit ⋅ opt (CSet [CSpace; CChar "-"])
  ⋅ exactly 4 digit ⋅ opt (CSet [CSpace; CChar "-"])
  ⋅ exactly 4 digit ⋅ Bound.

(** [(?:api[_-]?key|apikey|api[_-]?secret)[\s:=Q\']([a-zA-Z0-9_\-]{20,})],
    where Q stands for the double-quote character; below "034" is the double
    quote and "039" the single quote. *)
Definition api_key_re : regex :=
  (lit "api" ⋅ opt (CSet [CChar "_"; CChar "-"]) ⋅ lit "key"
   ∣ lit "apikey"
   ∣ lit "api" ⋅ opt (CSet [CChar "_"; CChar "-"]) ⋅ lit "secret")
  ⋅ CSet [CSpace; CChar ":"; CChar "="; CChar "034"; CChar "039"]
  ⋅ Group (at_least 20 (CSet [CRange "a" "z"; CRange "A" "Z"; CRange "0" "9";
                             CChar "_"; CChar "-"])).

(** [\b(AKIA[0-9A-Z]{16})\b] *)
Definition aws_key_re : regex :=
  Bound
  ⋅ Group (lit "AKIA" ⋅ exactly 16 (CSet [CRange "0" "9"; CRange "A" "Z"]))
  ⋅ Bound.

(** [\b\d{3}[-.\s]?\d{3}[-.\s]?\d{4}\b] *)
Definition phone_re : regex :=
  Bound ⋅ exactly 3 digit ⋅ opt (CSet [CChar "-"; CChar "."; CSpace])
  ⋅ exactly 3 digit ⋅ opt (CSet [CChar "-"; CChar "."; CSpace])
  ⋅ exactly 4 digit ⋅ Bound.

(** [\b(?:\d{1,3}\.){3}\d{1,3}\b] *)
Definition ip_re : regex :=
  Bound ⋅ exactly 3 (Rep 1 (Some 3) digit ⋅ Chr ".") ⋅ Rep 1 (Some 3) digit
  ⋅ Bound.

End Registry.

Definition patterns : list (string * regex) :=
  [ ("Email Address", email_re);
    ("SSN", ssn_re);
    ("Credit Card", credit_card_re);
    ("API Key Pattern", api_key_re);
    ("AWS Access Key", aws_key_re);
    ("Phone Number", phone_re);
    ("IP Address", ip_re) ].

(** ** Values of the program *)

(** A LangChain [Document]. *)
Record Document : Type := mkDocument {
  page_content : string;
  metadata : list (string * string)
}.

(** The exceptions the class raises itself, and those coming out of a
    library call, which carry the name of their class. *)
Inductive exn : Type :=
  | ValueError (msg : string)
  | FileNotFoundError (msg : string)
  | LibraryError (cls msg : string).

Definition exn_class (e : exn) : string :=
  match e with
  | ValueError _ => "ValueError"
  | FileNotFoundError _ => "FileNotFoundError"
  | LibraryError cls _ => cls
  end.

Definition exn_message (e : exn) : string :=
  match e with
  | ValueError msg | FileNotFoundError msg | LibraryError _ msg => msg
  end.

Inductive result (A : Type) : Type :=
  | Ok (a : A)
  | Raise (e : exn).
Arguments Ok {A} a.
Arguments Raise {A} e.

(** Handles of library objects. *)
Inductive Embeddings : Type := OpenAIEmbeddings.
Inductive VectorStore : Type := FAISS (handle : nat).

Record ChatOpenAI : Type := mkChatOpenAI {
  llm_model_name : string;
  llm_temperature : Q
}.

(** [vectorstore.as_retriever(search_kwargs={"k": k})] *)
Record Retriever : Type := mkRetriever {
  retriever_store : VectorStore;
  search_k : Z
}.

(** [RetrievalQA.from_chain_type(llm, chain_type, retriever,
    return_source_documents)] *)
Record RetrievalQA : Type := mkRetrievalQA {
  qa_llm : ChatOpenAI;
  qa_chain_type : string;
  qa_retriever : Retriever;
  return_source_documents : bool
}.

(** The dictionary a chain returns; [security_alerts] is the key [query]
    may add. *)
Record Response : Type := mkResponse {
  response_result : string;
  source_documents : list Document;
  security_alerts : option (list string)
}.

(** The attributes of a [SecureRAGResearcher]. *)
Record SecureRAGResearcher : Type := mkResearcher {
  pdf_path : string;
  chunk_size : Z;
  chunk_overlap : Z;
  model_name : string;
  temperature : Q;
  vectorstore_path : string;
  enable_pii_detection : bool;
  vectorstore : option VectorStore;
  qa_chain : option RetrievalQA
}.

(** What the program sees of its surroundings: the process environment
    ([os.getenv]) and the paths that exist ([Path(p).exists()]). *)
Record World : Type := mkWorld {
  environ : gmap string string;
  files : gset string
}.

Definition getenv (w : World) (name : string) : option string :=
  environ w !! name.

Definition path_exists (w : World) (p : string) : bool :=
  bool_decide (p ∈ files w).

(** Calls that leave the program, in the order they are made.  [EvFindall]
    records an evaluation of a registry pattern on a text. *)
Inductive event : Type :=
  | EvPdfLoad (path : string)
  | EvSplit (size overlap : Z) (documents : list Document)
  | EvLoadLocal (path : string)
  | EvFromDocuments (chunks : list Document)
  | EvSaveLocal (store : VectorStore) (path : string)
  | EvInvoke (chain : RetrievalQA) (question : string)
  | EvFindall (label : string) (text : string).

(** The libraries and services behind those calls.  Each may raise. *)
Record Services : Type := mkServices {
  pdf_loader_load : string → World → result (list Document);
  split_documents : Z → Z → list Document → result (list Document);
  faiss_load_local : string → Embeddings → World → result VectorStore;
  faiss_from_documents : list Document → Embeddings → World → result VectorStore;
  faiss_save_local : VectorStore → string → World → result World;
  chain_invoke : RetrievalQA → string → World → result Response
}.

(** ** The monad of methods

    A method runs on the object, the world and the trace; an exception
    keeps the changes made before it was raised. *)
Record state : Type := mkState {
  self : SecureRAGResearcher;
  world : World;
  trace : list event
}.

Definition M (A : Type) : Type := state → result A * state.

Global Instance M_mret : MRet M := λ A a st, (Ok a, st).

Global Instance M_bind : MBind M := λ A B k m st,
  match m st with
  | (Ok a, st') => k a st'
  | (Raise e, st') => (Raise e, st')
  end.

Definition raise {A} (e : exn) : M A := λ st, (Raise e, st).

Definition get_self : M SecureRAGResearcher := λ st, (Ok (self st), st).

Definition set_self (f : SecureRAGResearcher → SecureRAGResearcher) : M unit :=
  λ st, (Ok tt, mkState (f (self st)) (world st) (trace st)).

Definition get_world : M World := λ st, (Ok (world st), st).

Definition emit (ev : event) : M unit :=
  λ st, (Ok tt, mkState (self st) (world st) (trace st ++ [ev])).

(** A library call that reads the world. *)
Definition call {A} (ev : event) (f : World → result A) : M A :=
  λ st, (f (world st), mkState (self st) (world st) (trace st ++ [ev])).

(** A library call that writes to the world. *)
Definition call_write (ev : event) (f : World → result World) : M unit :=
  λ st, match f (world st) with
        | Ok w' => (Ok tt, mkState (self st) w' (trace st ++ [ev]))
        | Raise e => (Raise e, mkState (self st) (world st) (trace st ++ [ev]))
        end.

(** A [for] loop that threads an accumulator. *)
Fixpoint for_each {A B} (xs : list A) (body : B → A → M B) (acc : B) : M B :=
  match xs with
  | [] => mret acc
  | x :: xs' => acc' ← body acc x; for_each xs' body acc'
  end.

Definition set_vectorstore (v : option VectorStore) (r : SecureRAGResearcher)
    : SecureRAGResearcher :=
  mkResearcher (pdf_path r) (chunk_size r) (chunk_overlap r) (model_name r)
    (temperature r) (vectorstore_path r) (enable_pii_detection r) v (qa_chain r).

Definition set_qa_chain (c : option RetrievalQA) (r : SecureRAGResearcher)
    : SecureRAGResearcher :=
  mkResearcher (pdf_path r) (chunk_size r) (chunk_overlap r) (model_name r)
    (temperature r) (vectorstore_path r) (enable_pii_detection r)
    (vectorstore r) c.

(** [needle in hay] on strings. *)
Fixpoint str_contains (needle hay : string) : bool :=
  String.prefix needle hay ||
  match hay with
  | EmptyString => false
  | String _ hay' => str_contains needle hay'
  end.

(** ** The class [SecureRAGResearcher] *)

(** [_validate_environment]: the API key first, then the document. *)
Definition _validate_environment (w : World) (pdf : string) : result unit :=
  match getenv w "OPENAI_API_KEY" with
  | None | Some EmptyString =>
      Raise (ValueError
        ("OPENAI_API_KEY environment variable not set. "
         +:+ "Please set it before running."))
  | Some _ =>
      if negb (path_exists w pdf)
      then Raise (FileNotFoundError ("PDF file not found: " +:+ pdf))
      else Ok tt
  end.

(** [__init__]: the attributes are set, then the environment is validated;
    an exception leaves the caller without an object.
    [vectorstore_path or "./vectorstore"] replaces [None] and the empty
    string. *)
Definition __init__ (w : World) (pdf_path : string)
    (chunk_size chunk_overlap : Z) (model_name : string) (temperature : Q)
    (vectorstore_path : option string) (enable_pii_detection : bool)
    : result SecureRAGResearcher :=
  let obj :=
    mkResearcher pdf_path chunk_size chunk_overlap model_name temperature
      (match vectorstore_path with
       | None | Some EmptyString => "./vectorstore"
       | Some p => p
       end)
      enable_pii_detection None None in
  match _validate_environment w (pdf_path) with
  | Ok _ => Ok obj
  | Raise e => Raise e
  end.

(** The constructor called with its default arguments. *)
Definition new_researcher (w : World) (pdf_path : string)
    : result SecureRAGResearcher :=
  __init__ w pdf_path 1000 200 "gpt-4o" 0 None false.

(** The body of the inner loop of [scan_for_secrets]: one registry entry
    tried on one chunk. *)
Definition check_pattern (doc : Document) (findings : list string)
    (entry : string * regex) : M (list string) :=
  let '(label, pattern) := entry in
  emit (EvFindall label (page_content doc));;
  let matches := re_findall pattern true (page_content doc) in
  match matches with
  | [] => mret findings
  | _ :: _ => mret (findings ++ [label +:+ " pattern detected in source chunk"])
  end.

(** [scan_for_secrets].  [list(set(findings))] keeps one copy of each
    finding, in an order the program does not control; here it is the order
    of [elements]. *)
Definition scan_for_secrets (documents : list Document) : M (list string) :=
  obj ← get_self;
  if negb (enable_pii_detection obj) then mret []
  else
    findings ←
      for_each documents (λ findings doc,
        for_each patterns (check_pattern doc) findings) [];
    mret (elements (list_to_set findings : gset string)).

Section Methods.
Context (svc : Services).

(** [load_and_process_document] *)
Definition load_and_process_document : M (list Document) :=
  obj ← get_self;
  documents ← call (EvPdfLoad (pdf_path obj))
                (pdf_loader_load svc (pdf_path obj));
  chunks ← call (EvSplit (chunk_size obj) (chunk_overlap obj) documents)
             (λ _, split_documents svc (chunk_size obj) (chunk_overlap obj)
                     documents);
  mret chunks.

(** [create_vectorstore] *)
Definition create_vectorstore (chunks : list Document) (force_recreate : bool)
    : M unit :=
  obj ← get_self;
  w ← get_world;
  let vectorstore_exists := path_exists w (vectorstore_path obj) in
  if vectorstore_exists && negb force_recreate then
    let embeddings := OpenAIEmbeddings in
    store ← call (EvLoadLocal (vectorstore_path obj))
              (faiss_load_local svc (vectorstore_path obj) embeddings);
    set_self (set_vectorstore (Some store))
  else
    let embeddings := OpenAIEmbeddings in
    store ← call (EvFromDocuments chunks)
              (faiss_from_documents svc chunks embeddings);
    set_self (set_vectorstore (Some store));;
    call_write (EvSaveLocal store (vectorstore_path obj))
      (faiss_save_local svc store (vectorstore_path obj)).

(** [setup_qa_chain] *)
Definition setup_qa_chain : M unit :=
  obj ← get_self;
  match vectorstore obj with
  | None =>
      raise (ValueError
        "Vectorstore not initialized. Call create_vectorstore first.")
  | Some store =>
      let llm := mkChatOpenAI (model_name obj) (temperature obj) in
      set_self (set_qa_chain
        (Some (mkRetrievalQA llm "stuff" (mkRetriever store 4) true)))
  end.

(** [query] *)
Definition query (question : string) : M Response :=
  obj ← get_self;
  match qa_chain obj with
  | None =>
      raise (ValueError "QA chain not initialized. Call setup_qa_chain first.")
  | Some chain =>
      response ← call (EvInvoke chain question)
                   (chain_invoke svc chain question);
      if enable_pii_detection obj then
        security_findings ← scan_for_secrets (source_documents response);
        match security_findings with
        | [] => mret response
        | _ :: _ =>
            mret (mkResponse (response_result response)
                   (source_documents response) (Some security_findings))
        end
      else mret response
  end.

(** [initialize] *)
Definition initialize (force_recreate : bool) : M unit :=
  chunks ← load_and_process_document;
  create_vectorstore chunks force_recreate;;
  setup_qa_chain.

End Methods.

(** ** Notions used in the statements *)

(** The finding reported for a registry label. *)
Definition alert (label : string) : string :=
  label +:+ " pattern detected in source chunk".

(** Does [re.findall] with [re.IGNORECASE] find the pattern in the chunk? *)
Definition hit (r : regex) (d : Document) : bool :=
  match re_findall r true (page_content d) with
  | [] => false
  | _ :: _ => true
  end.

(** Which pattern matched in which chunk: one row per chunk, one entry per
    registry pattern. *)
Definition match_table (documents : list Document) : list (list bool) :=
  (λ d, (λ lr : string * regex, hit lr.2 d) <$> patterns) <$> documents.

Definition doc_findings (d : Document) : list string :=
  flat_map (λ lr : string * regex, if hit lr.2 d then [alert lr.1] else [])
    patterns.

Definition all_findings (documents : list Document) : list string :=
  flat_map doc_findings documents.

Definition scan_events (documents : list Document) : list event :=
  flat_map (λ d, (λ lr : string * regex, EvFindall lr.1 (page_content d))
                   <$> patterns) documents.

(** The value a method returned when run from a state, if it returned. *)
Definition value_of {A} (m : M A) (st : state) : option A :=
  match (m st).1 with Ok a => Some a | Raise _ => None end.

(** The exception a method raised, if it raised one. *)
Definition raised {A} (r : result A) : option exn :=
  match r with Ok _ => None | Raise e => Some e end.

(** The text with every character replaced by its image under [f]. *)
Fixpoint str_map (f : ascii → ascii) (s : string) : string :=
  match s with
  | EmptyString => EmptyString
  | String c s' => String (f c) (str_map f s')
  end.

Definition with_text (f : string → string) (d : Document) : Document :=
  mkDocument (f (page_content d)) (metadata d).

(** Python's [str.upper] on one code point of the alphabet: the ASCII and
    Latin-1 small letters go to their capitals, U+00DF goes to the two
    letters SS, and U+00B5 and U+00FF, whose capitals lie above U+00FF, have
    no image in the alphabet. *)
Definition upper_char (c : ascii) : option string :=
  let n := code c in
  if in_range "a" "z" c then Some (String (to_upper c) EmptyString)
  else if n =? 223 then Some "SS"
  else if (n =? 181) || (n =? 255) then None
  else if ((224 <=? n) && (n <=? 246)) || ((248 <=? n) && (n <=? 254))
       then Some (String (ascii_of_nat (n - 32)) EmptyString)
  else Some (String c EmptyString).

(** Python's [str.upper]; [None] when the result leaves the alphabet. *)
Fixpoint str_upper (s : string) : option string :=
  match s with
  | EmptyString => Some EmptyString
  | String c s' =>
      u ← upper_char c; t ← str_upper s'; Some (u +:+ t)
  end.

(** Python's [str.lower] on one code point of the alphabet. *)
Definition lower_char (c : ascii) : ascii :=
  let n := code c in
  if in_range "A" "Z" c then to_lower c
  else if ((192 <=? n) && (n <=? 214)) || ((216 <=? n) && (n <=? 222))
       then ascii_of_nat (n + 32)
  else c.

Definition str_lower (s : string) : string := str_map lower_char s.

Definition is_ascii (s : string) : bool :=
  forallb (λ c, code c <? 128) (String.list_ascii_of_string s).

(** A stand-in for the services in closed examples, in the manner of the
    mocks of [TestRAG.py]: the loader yields one page, the splitter returns
    its input, a loaded store has the handle 0 and a built one the handle 1,
    saving creates the path, and the chain answers from one chunk that holds
    an e-mail address. *)
Definition stub : Services :=
  mkServices
    (λ _ _, Ok [mkDocument "page" []])
    (λ _ _ docs, Ok docs)
    (λ _ _ _, Ok (FAISS 0))
    (λ _ _ _, Ok (FAISS 1))
    (λ _ p w, Ok (mkWorld (environ w) ({[p]} ∪ files w)))
    (λ _ _ _, Ok (mkResponse "answer" [mkDocument "see a@b.co" []] None)).

(** The match state over the text re-cased by [f]. *)
Definition map_state (f : ascii → ascii) (st : mstate) : mstate :=
  MState (f <$> prev st) (f <$> rest st) (fmap (M:=list) f <$> cap st).

(** The state after the calls [evs] have been recorded. *)
Definition logged (st : state) (evs : list event) : state :=
  mkState (self st) (world st) (trace st ++ evs).

(** The findings are read off the match table alone. *)
Definition table_findings (table : list (list bool)) : list string :=
  flat_map (λ row, flat_map (λ e : (string * regex) * bool,
                               if e.2 then [alert e.1.1] else [])
                     (zip patterns row)) table.

(** The sample chunk of [test_scan_for_secrets_detects_email] and a world in
    which the constructor succeeds. *)
Definition demo_world : World :=
  mkWorld {["OPENAI_API_KEY" := "test-key-12345"]}
          {["data/sample_security_policy.pdf"]}.

Definition demo_researcher (pii : bool) : SecureRAGResearcher :=
  mkResearcher "data/sample_security_policy.pdf" 1000 200 "gpt-4o" 0
    "./vectorstore" pii None None.

Definition demo_state (pii : bool) : state :=
  mkState (demo_researcher pii) demo_world [].

Definition email_doc : Document :=
  mkDocument "Contact us at support@example.com for help" [].

(** ** Retrieval *)

(** Modelled from the spec: the vector index and its top-k query.  The
    program retrieves through FAISS and a LangChain retriever, whose code is
    not part of the sources; what follows is the [query] operation of the
    spec's section 4.2 on the data model of its section 3: the [k] chunks
    closest to the query vector, by inner product, in descending order of
    score, ties in insertion order, [k] clamped to the size of the index. *)
Record Chunk : Type := mkChunk {
  chunk_id : nat;
  chunk_text : string;
  source_page_index : nat;
  start_offset : nat;
  end_offset : nat
}.

(** Modelled from the spec: an [IndexedVector], one per chunk (section 3). *)
Record IndexedVector : Type := mkIndexedVector {
  vector_chunk : Chunk;
  embedding_vector : list Q
}.

(** Modelled from the spec: a vector index, its vectors in insertion order. *)
Definition VectorIndex : Type := list IndexedVector.

(** Modelled from the spec: the inner-product metric of section 4.2. *)
Fixpoint inner_product (u v : list Q) : Q :=
  match u, v with
  | x :: u', y :: v' => (x * y + inner_product u' v')%Q
  | _, _ => 0%Q
  end.

(** Modelled from the spec: a chunk with its similarity score. *)
Definition scored (query_vector : list Q) (iv : IndexedVector) : Chunk * Q :=
  (vector_chunk iv, inner_product query_vector (embedding_vector iv)).

(** Modelled from the spec: ranking by descending score, stable.  [e]
    enters the ranking before the first entry that does not beat it. *)
Fixpoint insert_ranked (e : Chunk * Q) (ranked : list (Chunk * Q))
    : list (Chunk * Q) :=
  match ranked with
  | [] => [e]
  | e' :: rest =>
      if Qle_bool e'.2 e.2 then e :: e' :: rest
      else e' :: insert_ranked e rest
  end.

(** Modelled from the spec: the entries in descending order of score. *)
Definition rank (entries : list (Chunk * Q)) : list (Chunk * Q) :=
  foldr insert_ranked [] entries.

(** Modelled from the spec: [query(index, queryVector, k)] of section 4.2. *)
Definition vector_query (index : VectorIndex) (query_vector : list Q) (k : nat)
    : list (Chunk * Q) :=
  take k (rank (scored query_vector <$> index)).

(** Modelled from the spec: [a] may stand before [b] in a ranking. *)
Definition descending (a b : Chunk * Q) : Prop := (b.2 <= a.2)%Q.

(** ** The script of [main.py] *)

(** The configuration attributes of the object: those [__init__] sets from
    its arguments. *)
Definition config_of (r : SecureRAGResearcher)
    : string * Z * Z * string * Q * string * bool :=
  (pdf_path r, chunk_size r, chunk_overlap r, model_name r, temperature r,
   vectorstore_path r, enable_pii_detection r).

(** How a run of a script ended: the status the process exits with, the
    world it leaves and the library calls it made. *)
Record outcome : Type := mkOutcome {
  exit_status : Z;
  final_world : World;
  calls : list event
}.

(** The example queries of [main]. *)
Definition example_queries : list string :=
  [ "What are the specific PII handling requirements mentioned in section 4?";
    "What encryption standards are required for data at rest?";
    "How long should security logs be retained?" ].

(** The body of the loop of [main]: one query is put to the researcher;
    the answer is only printed. *)
Definition ask (svc : Services) (_ : unit) (question : string) : M unit :=
  response ← query svc question; mret tt.

(** [main] of [main.py]: the researcher is built for
    "sample_security_policy.pdf" with detection off, initialized without
    forcing, and asked the example queries in turn; any exception ends the
    run with status 1 ([except Exception] followed by [sys.exit(1)]), and a
    run that gets through ends with status 0. *)
Definition main (svc : Services) (w : World) : outcome :=
  match __init__ w "sample_security_policy.pdf" 1000 200 "gpt-4o" 0 None false
  with
  | Raise _ => mkOutcome 1 w []
  | Ok researcher =>
      let script : M unit :=
        initialize svc false;;
        for_each example_queries (ask svc) tt in
      match script (mkState researcher w []) with
      | (Ok _, st) => mkOutcome 0 (world st) (trace st)
      | (Raise _, st) => mkOutcome 1 (world st) (trace st)
      end
  end.

(** A stand-in whose document loader fails, the other services being those
    of [stub]. *)
Definition stub_without_loader : Services :=
  mkServices
    (λ _ _, Raise (LibraryError "PdfReadError" "cannot read document"))
    (split_documents stub) (faiss_load_local stub) (faiss_from_documents stub)
    (faiss_save_local stub) (chain_invoke stub).

(** A stand-in whose chain fails, the other services being those of
    [stub]. *)
Definition stub_without_chain : Services :=
  mkServices (pdf_loader_load stub) (split_documents stub)
    (faiss_load_local stub) (faiss_from_documents stub) (faiss_save_local stub)
    (λ _ _ _, Raise (LibraryError "APIConnectionError" "connection error")).

(** The state [initialize] leaves on the stand-in services. *)
Definition ready_state (pii : bool) : state :=
  (initialize stub false (demo_state pii)).2.

(** The chain of [ready_state]. *)
Definition ready_chain : RetrievalQA :=
  mkRetrievalQA (mkChatOpenAI "gpt-4o" 0) "stuff" (mkRetriever (FAISS 1) 4) true.

Definition is_findall (ev : event) : bool :=
  match ev with EvFindall _ _ => true | _ => false end.

Definition is_invoke (ev : event) : bool :=
  match ev with EvInvoke _ _ => true | _ => false end.

(** A world in which [main] finds its document and the API key. *)
Definition main_world : World :=
  mkWorld {["OPENAI_API_KEY" := "test-key-12345"]}
          {["sample_security_policy.pdf"]}.

(** ** Characters a pattern cannot do without *)

(** The characters of the alphabet. *)
Definition alphabet : list ascii := ascii_of_nat <$> seq 0 256.

(** Does every character that [accepts] lets through satisfy [p]? *)
Definition class_within (p accepts : ascii → bool) : bool :=
  forallb (λ c, implb (accepts c) (p c)) alphabet.

(** [needs p r]: by the shape of [r], a match of [r] under [re.IGNORECASE]
    reads at least one character that satisfies [p]. *)
Fixpoint needs (p : ascii → bool) (r : regex) : bool :=
  match r with
  | Eps | Bound => false
  | Chr c => class_within p (item_matches true (CChar c))
  | CSet items =>
      class_within p (λ c, existsb (λ it, item_matches true it c) items)
  | Cat r1 r2 => needs p r1 || needs p r2
  | Alt r1 r2 => needs p r1 && needs p r2
  | Rep lo _ r1 => (0 <? lo) && needs p r1
  | Group r1 => needs p r1
  end.

(** Does the text hold a character that satisfies [p]? *)
Definition has_char (p : ascii → bool) (s : string) : bool :=
  existsb p (String.list_ascii_of_string s).

(** ** The script [setup.py]

    The script works on the files of the working directory, reads the
    user's answers and starts processes.  Paths are the strings the script
    writes; a process is a call that leaves the program, recorded in the
    trace with its command line.  [print] calls are not modelled. *)

Module Setup.

(** What a path holds. *)
Inductive node : Type :=
  | File (content : string)
  | Dir.

(** How [subprocess.run] ended: the process ran and exited with a status,
    leaving the files it leaves, or it could not be started. *)
Inductive process : Type :=
  | Exited (status : Z) (files : gmap string node)
  | NotStarted (e : exn).

(** What the script sees of its surroundings: [sys.version_info],
    [sys.platform], [sys.executable] and what a command does. *)
Record System : Type := mkSystem {
  version_info : Z * Z * Z;
  platform : string;
  executable : string;
  run_process : list string → gmap string node → process
}.

Inductive event : Type :=
  | EvInput (prompt : string)
  | EvRun (command : list string)
  | EvRmtree (path : string)
  | EvWrite (path : string)
  | EvMkdir (path : string).

(** The files, the answers [input] has still to read, and the trace. *)
Record state : Type := mkState {
  files : gmap string node;
  answers : list string;
  trace : list event
}.

Definition Script (A : Type) : Type := state → result A * state.

Global Instance Script_ret : MRet Script := λ A a st, (Ok a, st).

Global Instance Script_bind : MBind Script := λ A B k m st,
  match m st with
  | (Ok a, st') => k a st'
  | (Raise e, st') => (Raise e, st')
  end.

Definition log (st : state) (evs : list event) : state :=
  mkState (files st) (answers st) (trace st ++ evs).

(** [Path(p).exists()] *)
Definition path_exists (p : string) : Script bool :=
  λ st, (Ok (bool_decide (is_Some (files st !! p))), st).

(** [input(prompt)]: the next answer; [EOFError] when there is none. *)
Definition input (prompt : string) : Script string :=
  λ st, match answers st with
        | a :: rest =>
            (Ok a, mkState (files st) rest (trace st ++ [EvInput prompt]))
        | [] =>
            (Raise (LibraryError "EOFError" "EOF when reading a line"),
             log st [EvInput prompt])
        end.

(** Is [p] the path [root] or a path below it? *)
Definition below (root p : string) : bool :=
  bool_decide (p = root) || String.prefix (root +:+ "/") p.

(** [shutil.rmtree(p)]: the directory goes with all that is below it; a
    path that is no directory makes it raise. *)
Definition rmtree (p : string) : Script unit :=
  λ st, match files st !! p with
        | Some Dir =>
            (Ok tt,
             mkState (filter (λ kv : string * node, below p kv.1 = false) (files st))
               (answers st) (trace st ++ [EvRmtree p]))
        | Some (File _) =>
            (Raise (LibraryError "NotADirectoryError" p), log st [EvRmtree p])
        | None =>
            (Raise (FileNotFoundError p), log st [EvRmtree p])
        end.

(** [subprocess.run(command, check=True)] inside
    [try ... except subprocess.CalledProcessError]: [True] when the process
    exits with status 0, [False] when it exits with another status; an
    exception of another class, as when the program cannot be started, is not
    caught. *)
Definition run_checked (sys : System) (command : list string) : Script bool :=
  λ st, match run_process sys command (files st) with
        | Exited status files' =>
            (Ok (bool_decide (status = 0%Z)),
             mkState files' (answers st) (trace st ++ [EvRun command]))
        | NotStarted e => (Raise e, log st [EvRun command])
        end.

(** [open(p, 'r').read()] *)
Definition read_file (p : string) : Script string :=
  λ st, match files st !! p with
        | Some (File content) => (Ok content, st)
        | Some Dir => (Raise (LibraryError "IsADirectoryError" p), st)
        | None => (Raise (FileNotFoundError p), st)
        end.

(** [open(p, 'w').write(content)] *)
Definition write_file (p content : string) : Script unit :=
  λ st, match files st !! p with
        | Some Dir => (Raise (LibraryError "IsADirectoryError" p), st)
        | _ =>
            (Ok tt,
             mkState (<[p := File content]> (files st)) (answers st)
               (trace st ++ [EvWrite p]))
        end.

(** [Path(p).mkdir(parents=True)] on a path of one component that does not
    exist. *)
Definition mkdir (p : string) : Script unit :=
  λ st, match files st !! p with
        | Some _ => (Raise (LibraryError "FileExistsError" p), st)
        | None =>
            (Ok tt,
             mkState (<[p := Dir]> (files st)) (answers st)
               (trace st ++ [EvMkdir p]))
        end.

(** [s.replace(old, new)] for a non-empty [old]: the occurrences of [old]
    are replaced from the left, without overlap.  [skip] counts the
    characters of an occurrence still to be passed over. *)
Fixpoint replace_from (old new : string) (skip : nat) (s : string) : string :=
  match s with
  | EmptyString => EmptyString
  | String c s' =>
      match skip with
      | S k => replace_from old new k s'
      | O =>
          if String.prefix old s
          then new +:+ replace_from old new (String.length old - 1) s'
          else String c (replace_from old new 0 s')
      end
  end.

Definition replace (old new s : string) : string := replace_from old new 0 s.

(** [check_python_version] *)
Definition check_python_version (sys : System) : bool :=
  let '(major, minor, _) := version_info sys in
  if (major <? 3)%Z || ((major =? 3)%Z && (minor <? 8)%Z) then false else true.

(** [get_pip_command]; [str(Path("venv/Scripts/pip"))] is written with
    backslashes on the platform "win32". *)
Definition get_pip_command (sys : System) : string :=
  if bool_decide (platform sys = "win32") then "venv\Scripts\pip"
  else "venv/bin/pip".

(** [create_virtual_environment] *)
Definition create_virtual_environment (sys : System) : Script bool :=
  let create : Script bool :=
    run_checked sys [executable sys; "-m"; "venv"; "venv"] in
  venv_exists ← path_exists "venv";
  if (venv_exists : bool) then
    answer ← input "Recreate it? (y/n): ";
    let response := str_lower answer in
    if bool_decide (response ≠ "y") then mret true
    else rmtree "venv";; create
  else create.

(** [install_dependencies] *)
Definition install_dependencies (sys : System) : Script bool :=
  let pip_cmd := get_pip_command sys in
  run_checked sys [pip_cmd; "install"; "-r"; "requirements.txt"].

(** [setup_env_file] *)
Definition setup_env_file : Script bool :=
  env_exists ← path_exists ".env";
  if (env_exists : bool) then mret true
  else
    example_exists ← path_exists ".env.example";
    if negb (example_exists : bool) then mret false
    else
      content ← read_file ".env.example";
      write_file ".env" content;;
      mret true.

(** [create_directories] *)
Fixpoint make_missing (directories : list string) : Script unit :=
  match directories with
  | [] => mret tt
  | dir_name :: more =>
      dir_exists ← path_exists dir_name;
      (if negb (dir_exists : bool) then mkdir dir_name else mret tt);;
      make_missing more
  end.

Definition create_directories : Script bool :=
  make_missing ["data"; "vectorstore"];; mret true.

(** [generate_sample_pdf] *)
Definition generate_sample_pdf (sys : System) : Script bool :=
  let generate : Script bool :=
    let python_cmd :=
      replace "\pip" "\python" (replace "/pip" "/python" (get_pip_command sys)) in
    run_checked sys [python_cmd; "generate_sample_pdf.py"] in
  pdf_exists ← path_exists "data/sample_security_policy.pdf";
  if (pdf_exists : bool) then
    answer ← input "Regenerate it? (y/n): ";
    let response := str_lower answer in
    if bool_decide (response ≠ "y") then mret true else generate
  else generate.

(** [main]: the seven steps; the first of the steps 1 to 5 that fails ends
    the setup with [False]; step 6 only warns, and the result of step 7 is
    not looked at. *)
Definition main (sys : System) : Script bool :=
  if negb (check_python_version sys) then mret false
  else
    venv ← create_virtual_environment sys;
    if negb (venv : bool) then mret false
    else
      installed ← install_dependencies sys;
      if negb (installed : bool) then mret false
      else
        env ← setup_env_file;
        if negb (env : bool) then mret false
        else
          dirs ← create_directories;
          if negb (dirs : bool) then mret false
          else
            run_checked sys [get_pip_command sys; "install"; "reportlab"];;
            generate_sample_pdf sys;;
            mret true.

(** The script as a process: status 0 when [main] returns [True], status 1
    when it returns [False] or an exception comes out of it. *)
Definition exit_status (sys : System) (st : state) : Z :=
  match (main sys st).1 with
  | Ok true => 0
  | Ok false | Raise _ => 1
  end.

End Setup.

(** Is the event the start of a process whose arguments, after the
    program, are [args]? *)
Definition runs_with (args : list string) (ev : Setup.event) : bool :=
  match ev with
  | Setup.EvRun (_ :: args') => bool_decide (args' = args)
  | _ => false
  end.

Definition is_mkdir (ev : Setup.event) : bool :=
  match ev with Setup.EvMkdir _ => true | _ => false end.

(** A system for closed examples: Python 3.11 on Linux, on which every
    command exits with status 0 and leaves the files as they are. *)
Definition demo_system : Setup.System :=
  Setup.mkSystem (3, 11, 2)%Z "linux" "/usr/bin/python3"
    (λ _ fs, Setup.Exited 0 fs).

(** The same system with Python 3.7. *)
Definition old_system : Setup.System :=
  Setup.mkSystem (3, 7, 9)%Z "linux" "/usr/bin/python3"
    (λ _ fs, Setup.Exited 0 fs).

(** A checkout with the template of the environment file and the
    requirements. *)
Definition fresh_checkout : gmap string Setup.node :=
  {[ ".env.example" := Setup.File "OPENAI_API_KEY=your-key-here";
     "requirements.txt" := Setup.File "langchain" ]}.

(** [emits P m]: whatever the state, [m] only adds events to the trace, and
    each event it adds satisfies [P]. *)
Definition emits {A} (P : Setup.event → Prop) (m : Setup.Script A) : Prop :=
  ∀ st, ∃ evs, Setup.trace (m st).2 = Setup.trace st ++ evs ∧ Forall P evs.

(** An event of the steps 1 to 4 of [Setup.main]: no directory is made, and
    no process is started for reportlab or for the sample document. *)
Definition early (ev : Setup.event) : Prop :=
  is_mkdir ev = false ∧
  runs_with ["install"; "reportlab"] ev = false ∧
  runs_with ["generate_sample_pdf.py"] ev = false.

(* ================================================================== *)
(** * Part II.  Properties *)
(* ================================================================== *)

(** ** Characters and case *)

Ltac by_char c := destruct c as [[] [] [] [] [] [] [] []]; vm_compute; reflexivity.

Lemma to_lower_idemp c : to_lower (to_lower c) = to_lower c.
Proof. by_char c. Qed.

Lemma to_lower_to_upper c : to_lower (to_upper c) = to_lower c.
Proof. by_char c. Qed.

Lemma is_word_to_lower c : is_word (to_lower c) = is_word c.
Proof. by_char c. Qed.

Lemma is_digit_to_lower c : is_digit (to_lower c) = is_digit c.
Proof. by_char c. Qed.

Lemma is_space_to_lower c : is_space (to_lower c) = is_space c.
Proof. by_char c. Qed.

(** ** Matching does not see the case of the text

    [f] stands for any change of letter case that [re.IGNORECASE] folds
    away: [to_upper], [to_lower], or a mix of the two. *)

Section CaseBlind.
Variable f : ascii → ascii.
Hypothesis f_folds : ∀ c, to_lower (f c) = to_lower c.

Local Abbreviation recased := (map_state f).

Lemma is_word_fold c : is_word (f c) = is_word c.
Proof. by rewrite <- (is_word_to_lower (f c)), f_folds, is_word_to_lower. Qed.

Lemma is_digit_fold c : is_digit (f c) = is_digit c.
Proof. by rewrite <- (is_digit_to_lower (f c)), f_folds, is_digit_to_lower. Qed.

Lemma is_space_fold c : is_space (f c) = is_space c.
Proof. by rewrite <- (is_space_to_lower (f c)), f_folds, is_space_to_lower. Qed.

Lemma item_matches_fold it c :
  item_matches true it (f c) = item_matches true it c.
Proof.
  destruct it; simpl.
  - by rewrite f_folds.
  - by rewrite f_folds.
  - apply is_digit_fold.
  - apply is_space_fold.
Qed.

Lemma word_before_map st : word_before (recased st) = word_before st.
Proof. destruct st as [[c|] s k]; simpl; [apply is_word_fold|done]. Qed.

Lemma word_after_map st : word_after (recased st) = word_after st.
Proof. destruct st as [p [|c s] k]; simpl; [done|apply is_word_fold]. Qed.

Lemma progressed_map st st' :
  progressed (recased st) (recased st') = progressed st st'.
Proof. unfold progressed; simpl. by rewrite !length_fmap. Qed.

Lemma captured_map st st' :
  captured (recased st) (recased st') = f <$> captured st st'.
Proof. unfold captured; simpl. by rewrite !length_fmap, fmap_take. Qed.

Lemma eat_map (p q : ascii → bool) st :
  (∀ c, p (f c) = q c) →
  eat p (recased st) = recased <$> eat q st.
Proof.
  intros Hpq. destruct st as [pv [|c s] k]; simpl; [done|].
  unfold eat; simpl. rewrite Hpq. by destruct (q c).
Qed.

Lemma flat_map_fmap {A B C} (g : B → list C) (h : A → B) (l : list A) :
  flat_map g (h <$> l) = flat_map (g ∘ h) l.
Proof. induction l as [|x l IH]; csimpl; [done|by rewrite IH]. Qed.

Lemma fmap_flat_map {A B C} (h : B → C) (g : A → list B) (l : list A) :
  h <$> flat_map g l = flat_map (λ x, h <$> g x) l.
Proof. induction l as [|x l IH]; csimpl; [done|by rewrite fmap_app, IH]. Qed.

Lemma flat_map_equal {A B} (g h : A → list B) (l : list A) :
  (∀ x, g x = h x) → flat_map g l = flat_map h l.
Proof. intros E. induction l as [|x l IH]; simpl; [done|by rewrite E, IH]. Qed.

Lemma filter_progressed_map st (l : list mstate) :
  filter (λ st', progressed (recased st) st') (recased <$> l)
  = recased <$> filter (λ st', progressed st st') l.
Proof.
  induction l as [|x l IH]; [done|].
  rewrite fmap_cons, !filter_cons, progressed_map, IH.
  by destruct (decide (progressed st x)).
Qed.

Lemma rep_match_map (step step' : mstate → list mstate) fuel lo hi st :
  (∀ st0, step' (recased st0) = recased <$> step st0) →
  rep_match step' fuel lo hi (recased st)
  = recased <$> rep_match step fuel lo hi st.
Proof.
  intros Hstep. revert lo hi st.
  induction fuel as [|fuel IH]; intros lo hi st; simpl.
  - by destruct (lo =? 0).
  - rewrite fmap_app. f_equal; [|by destruct (lo =? 0)].
    assert (∀ l, flat_map (rep_match step' fuel (pred lo) (pred <$> hi))
                   (recased <$> l)
                 = recased <$> flat_map
                     (rep_match step fuel (pred lo) (pred <$> hi)) l) as Hl.
    { intros l. rewrite flat_map_fmap, fmap_flat_map.
      apply flat_map_equal. intros x. apply IH. }
    destruct hi as [[|h]|]; [done| |].
    + rewrite Hstep. destruct (lo =? 0).
      * by rewrite filter_progressed_map, Hl.
      * apply Hl.
    + rewrite Hstep. destruct (lo =? 0).
      * by rewrite filter_progressed_map, Hl.
      * apply Hl.
Qed.

Lemma rmatch_map r st :
  rmatch true r (recased st) = recased <$> rmatch true r st.
Proof.
  revert st. induction r as [|p|items| |r1 IH1 r2 IH2|r1 IH1 r2 IH2|lo hi r IH|r IH];
    intros st; simpl.
  - done.
  - apply eat_map. intros c. apply item_matches_fold.
  - apply eat_map. intros c. induction items as [|it items IHi]; simpl; [done|].
    by rewrite item_matches_fold, IHi.
  - rewrite word_before_map, word_after_map.
    by destruct (xorb (word_before st) (word_after st)).
  - rewrite IH1, flat_map_fmap, fmap_flat_map. apply flat_map_equal.
    intros x. apply IH2.
  - by rewrite fmap_app, IH1, IH2.
  - rewrite length_fmap. by apply rep_match_map.
  - rewrite IH. rewrite <- !list_fmap_compose. apply list_fmap_ext.
    intros _ st' _. simpl. by rewrite captured_map.
Qed.

Lemma report_map r st st' :
  report r (recased st) (recased st') = f <$> report r st st'.
Proof.
  unfold report. destruct (has_group r).
  - destruct st' as [p s [k|]]; done.
  - apply captured_map.
Qed.

Lemma findall_from_map r fuel p s :
  findall_from true r fuel (f <$> p) (f <$> s)
  = fmap (M:=list) f <$> findall_from true r fuel p s.
Proof.
  revert p s. induction fuel as [|fuel IH]; intros p s; [done|].
  cbn [findall_from].
  change (MState (f <$> p) (f <$> s) None) with (recased (MState p s None)).
  rewrite rmatch_map.
  assert (match f <$> s with
          | c :: s' => findall_from true r fuel (Some c) s'
          | [] => []
          end
          = fmap (M:=list) f <$> match s with
                       | c :: s' => findall_from true r fuel (Some c) s'
                       | [] => []
                       end) as Hstep.
  { destruct s as [|c s]; [done|]. apply (IH (Some c) s). }
  destruct (rmatch true r (MState p s None)) as [|st' l]; [exact Hstep|].
  rewrite fmap_cons, report_map, progressed_map, fmap_cons. f_equal.
  destruct (progressed (MState p s None) st'); [|exact Hstep].
  apply (IH (prev st') (rest st')).
Qed.

Lemma list_ascii_of_str_map s :
  String.list_ascii_of_string (str_map f s)
  = f <$> String.list_ascii_of_string s.
Proof. induction s as [|c s IH]; simpl; [done|by rewrite IH]. Qed.

Lemma string_of_list_ascii_fmap l :
  String.string_of_list_ascii (f <$> l)
  = str_map f (String.string_of_list_ascii l).
Proof. induction l as [|c l IH]; csimpl; [done|by rewrite IH]. Qed.

(** [re.findall] with [re.IGNORECASE] on the re-cased text finds the
    re-cased matches. *)
Lemma re_findall_str_map r s :
  re_findall r true (str_map f s) = str_map f <$> re_findall r true s.
Proof.
  unfold re_findall. rewrite list_ascii_of_str_map, length_fmap.
  rewrite (findall_from_map r _ None), <- !list_fmap_compose.
  apply list_fmap_ext. intros _ l _. simpl. apply string_of_list_ascii_fmap.
Qed.

Lemma hit_with_text r d : hit r (with_text (str_map f) d) = hit r d.
Proof.
  unfold hit, with_text; simpl. rewrite re_findall_str_map.
  by destruct (re_findall r true (page_content d)).
Qed.

End CaseBlind.

(** ** Running the scanner *)

Ltac run := unfold mbind, mret, M_bind, M_mret, raise, get_self, set_self,
  get_world, emit, call, call_write; simpl.

Lemma logged_nil st : logged st [] = st.
Proof. destruct st. unfold logged; simpl. by rewrite app_nil_r. Qed.

Lemma logged_app st evs evs' : logged (logged st evs) evs' = logged st (evs ++ evs').
Proof. unfold logged; simpl. by rewrite app_assoc. Qed.

Lemma check_pattern_run d findings lr st :
  check_pattern d findings lr st
  = (Ok (findings ++ (if hit lr.2 d then [alert lr.1] else [])),
     logged st [EvFindall lr.1 (page_content d)]).
Proof.
  destruct lr as [label r]. unfold check_pattern, hit. run.
  destruct (re_findall r true (page_content d)); [|done].
  by rewrite app_nil_r.
Qed.

Lemma scan_patterns_run ps d findings st :
  for_each ps (check_pattern d) findings st
  = (Ok (findings
         ++ flat_map (λ lr : string * regex,
                        if hit lr.2 d then [alert lr.1] else []) ps),
     logged st ((λ lr : string * regex, EvFindall lr.1 (page_content d)) <$> ps)).
Proof.
  revert findings st. induction ps as [|lr ps IH]; intros findings st.
  - simpl. run. by rewrite app_nil_r, logged_nil.
  - cbn [for_each]. unfold mbind, M_bind. rewrite check_pattern_run, IH.
    csimpl. by rewrite logged_app, <- app_assoc.
Qed.

Lemma scan_documents_run docs findings st :
  for_each docs (λ findings doc, for_each patterns (check_pattern doc) findings)
    findings st
  = (Ok (findings ++ all_findings docs), logged st (scan_events docs)).
Proof.
  revert findings st. induction docs as [|d docs IH]; intros findings st.
  - simpl. run. by rewrite app_nil_r, logged_nil.
  - cbn [for_each]. unfold mbind, M_bind. rewrite scan_patterns_run, IH.
    unfold all_findings, scan_events. cbn [flat_map].
    by rewrite logged_app, <- app_assoc.
Qed.

(** The enabled scanner always returns: the findings of all chunks without
    repetition, after one evaluation per chunk and registry entry. *)
Lemma scan_enabled_run docs st :
  enable_pii_detection (self st) = true →
  scan_for_secrets docs st
  = (Ok (elements (list_to_set (all_findings docs) : gset string)),
     logged st (scan_events docs)).
Proof.
  intros En. unfold scan_for_secrets, mbind, M_bind, get_self. rewrite En. simpl.
  by rewrite scan_documents_run.
Qed.

Lemma scan_disabled_run docs st :
  enable_pii_detection (self st) = false →
  scan_for_secrets docs st = (Ok [], st).
Proof.
  intros Dis. unfold scan_for_secrets, mbind, M_bind, get_self. by rewrite Dis.
Qed.

(** ** What the findings are *)

Lemma elem_of_flat_map {A B} (g : A → list B) (l : list A) (b : B) :
  b ∈ flat_map g l ↔ ∃ a, a ∈ l ∧ b ∈ g a.
Proof.
  induction l as [|x l IH]; simpl.
  - split; [by intros ?%elem_of_nil|by intros (a & ?%elem_of_nil & _)].
  - rewrite elem_of_app, IH. split.
    + intros [H|(a & Ha & Hb)].
      * exists x. split; [apply elem_of_cons; by left|done].
      * exists a. split; [apply elem_of_cons; by right|done].
    + intros (a & [->|Ha]%elem_of_cons & Hb); [by left|right; eauto].
Qed.

Lemma elem_of_doc_findings d a :
  a ∈ doc_findings d ↔ ∃ lr, lr ∈ patterns ∧ hit lr.2 d = true ∧ a = alert lr.1.
Proof.
  unfold doc_findings. rewrite elem_of_flat_map. split.
  - intros (lr & Hlr & Ha). exists lr. destruct (hit lr.2 d).
    + apply list_elem_of_singleton in Ha. auto.
    + by apply elem_of_nil in Ha.
  - intros (lr & Hlr & Hh & ->). exists lr. rewrite Hh. split; [done|].
    by apply list_elem_of_singleton.
Qed.

Lemma elem_of_all_findings docs a :
  a ∈ all_findings docs ↔
  ∃ d lr, d ∈ docs ∧ lr ∈ patterns ∧ hit lr.2 d = true ∧ a = alert lr.1.
Proof.
  unfold all_findings. rewrite elem_of_flat_map. split.
  - intros (d & Hd & (lr & ? & ? & ?)%elem_of_doc_findings). by exists d, lr.
  - intros (d & lr & Hd & ? & ? & ?). exists d. split; [done|].
    apply elem_of_doc_findings. by exists lr.
Qed.

Lemma all_findings_table docs :
  all_findings docs = table_findings (match_table docs).
Proof.
  unfold all_findings, table_findings, match_table.
  rewrite flat_map_fmap. apply flat_map_equal. intros d. reflexivity.
Qed.

(** The registry keys are distinct, and so are their findings. *)
Lemma alert_registry_inj lr lr' :
  lr ∈ patterns → lr' ∈ patterns → alert lr.1 = alert lr'.1 → lr = lr'.
Proof.
  unfold patterns. intros H H'.
  repeat (apply elem_of_cons in H as [->|H]); [..|by apply elem_of_nil in H];
  repeat (apply elem_of_cons in H' as [->|H']); try (by apply elem_of_nil in H');
  first [reflexivity | intros E; vm_compute in E; discriminate E].
Qed.

Lemma count_NoDup {A} `{EqDecision A} (l : list A) (x : A) :
  NoDup l → length (filter (λ a, a = x) l) = if bool_decide (x ∈ l) then 1 else 0.
Proof.
  induction 1 as [|y l Hy Hl IH]; [done|].
  rewrite filter_cons. destruct (decide (y = x)) as [->|Hne].
  - simpl. rewrite IH. rewrite (bool_decide_eq_false_2 (x ∈ l)) by done.
    rewrite bool_decide_eq_true_2; [done|by left].
  - rewrite IH. apply not_eq_sym in Hne.
    destruct (bool_decide (x ∈ l)) eqn:E.
    + apply bool_decide_eq_true in E. rewrite bool_decide_eq_true_2; [done|by right].
    + apply bool_decide_eq_false in E. rewrite bool_decide_eq_false_2; [done|].
      by intros [?|?]%elem_of_cons.
Qed.

Lemma existsb_hit r docs :
  existsb (hit r) docs = true ↔ ∃ d, d ∈ docs ∧ hit r d = true.
Proof.
  rewrite existsb_exists. split; intros (d & Hd & Hh); exists d; split; auto.
  - by apply list_elem_of_In.
  - by apply list_elem_of_In.
Qed.

(** ** The scanner reports labels, never matched text *)

(** C1. With scanning enabled, [scan_for_secrets] returns, and every element
    of its result is one of the seven fixed strings
    "<PatternName> pattern detected in source chunk"; two runs on chunk lists
    with the same match table (which pattern matched in which chunk) return
    the same result whatever the chunks' text is, so no matched text reaches
    the result. *)
Theorem scan_reports_labels_only (st1 st2 : state) (docs1 docs2 : list Document) :
  enable_pii_detection (self st1) = true →
  enable_pii_detection (self st2) = true →
  match_table docs1 = match_table docs2 →
  ∃ alerts : list string,
    (scan_for_secrets docs1 st1).1 = Ok alerts ∧
    (scan_for_secrets docs2 st2).1 = Ok alerts ∧
    Forall (λ a, a ∈ [ "Email Address pattern detected in source chunk";
                       "SSN pattern detected in source chunk";
                       "Credit Card pattern detected in source chunk";
                       "API Key Pattern pattern detected in source chunk";
                       "AWS Access Key pattern detected in source chunk";
                       "Phone Number pattern detected in source chunk";
                       "IP Address pattern detected in source chunk" ]) alerts.
Proof.
  intros En1 En2 Htab.
  rewrite (scan_enabled_run docs1 st1 En1), (scan_enabled_run docs2 st2 En2).
  rewrite !all_findings_table, Htab. eexists. split; [done|]. split; [done|].
  rewrite <- Htab, <- all_findings_table. apply Forall_forall. intros a Ha.
  apply elem_of_elements, elem_of_list_to_set, elem_of_all_findings in Ha
    as (d & lr & _ & Hlr & _ & ->).
  change (alert lr.1 ∈ (λ lr : string * regex, alert lr.1) <$> patterns).
  by apply (list_elem_of_fmap_2 (λ lr : string * regex, alert lr.1)).
Qed.

Lemma scan_reports_labels_only_witness :
  ∃ alerts : list string,
    (scan_for_secrets [email_doc] (demo_state true)).1 = Ok alerts ∧
    (scan_for_secrets [mkDocument "Write to Admin@Corp.ORG today" []]
       (demo_state true)).1 = Ok alerts ∧
    Forall (λ a, a ∈ [ "Email Address pattern detected in source chunk";
                       "SSN pattern detected in source chunk";
                       "Credit Card pattern detected in source chunk";
                       "API Key Pattern pattern detected in source chunk";
                       "AWS Access Key pattern detected in source chunk";
                       "Phone Number pattern detected in source chunk";
                       "IP Address pattern detected in source chunk" ]) alerts.
Proof.
  apply (scan_reports_labels_only (demo_state true) (demo_state true)
           [email_doc] [mkDocument "Write to Admin@Corp.ORG today" []]);
    vm_compute; reflexivity.
Defined.

(** ** One label per matching pattern *)

Lemma hit_findall r d :
  hit r d = bool_decide (re_findall r true (page_content d) ≠ []).
Proof. unfold hit. by destruct (re_findall r true (page_content d)). Qed.

Lemma alert_in_findings docs lr :
  lr ∈ patterns →
  alert lr.1 ∈ all_findings docs ↔ existsb (hit lr.2) docs = true.
Proof.
  intros Hlr. rewrite elem_of_all_findings, existsb_hit. split.
  - intros (d & lr' & Hd & Hlr' & Hh & E).
    apply (alert_registry_inj lr lr' Hlr Hlr') in E as ->. eauto.
  - intros (d & Hd & Hh). by exists d, lr.
Qed.

(** C2. With scanning enabled, the result has no repetition and holds the
    label of a registry pattern exactly once when the pattern matches in at
    least one chunk (however many chunks or matches there are) and not at all
    otherwise; for the empty chunk list the result is empty. *)
Theorem scan_one_label_per_pattern (st : state) (docs : list Document) :
  enable_pii_detection (self st) = true →
  ∃ alerts : list string,
    (scan_for_secrets docs st).1 = Ok alerts ∧
    NoDup alerts ∧
    (∀ label r, (label, r) ∈ patterns →
       length (filter (λ a, a = label +:+ " pattern detected in source chunk")
                 alerts)
       = if existsb (λ d, bool_decide (re_findall r true (page_content d) ≠ []))
              docs
         then 1 else 0) ∧
    (docs = [] → alerts = []).
Proof.
  intros En. rewrite (scan_enabled_run docs st En). eexists. split; [done|].
  split; [apply NoDup_elements|]. split.
  - intros label r Hlr. rewrite count_NoDup by apply NoDup_elements.
    assert (existsb (λ d, bool_decide (re_findall r true (page_content d) ≠ []))
              docs = existsb (hit r) docs) as ->.
    { induction docs as [|d docs IH]; simpl; [done|].
      by rewrite IH, hit_findall. }
    pose proof (alert_in_findings docs (label, r) Hlr) as Hin. simpl in Hin.
    destruct (existsb (hit r) docs).
    + rewrite bool_decide_eq_true_2; [done|].
      apply elem_of_elements, elem_of_list_to_set, Hin. done.
    + rewrite bool_decide_eq_false_2; [done|].
      intros H%elem_of_elements%elem_of_list_to_set%Hin. done.
  - intros ->. done.
Qed.

Lemma scan_one_label_per_pattern_witness :
  ∃ alerts : list string,
    (scan_for_secrets
       [email_doc; mkDocument "a@b.co, c@d.org and 10.0.0.1" []]
       (demo_state true)).1 = Ok alerts ∧
    NoDup alerts ∧
    (∀ label r, (label, r) ∈ patterns →
       length (filter (λ a, a = label +:+ " pattern detected in source chunk")
                 alerts)
       = if existsb (λ d, bool_decide (re_findall r true (page_content d) ≠ []))
              [email_doc; mkDocument "a@b.co, c@d.org and 10.0.0.1" []]
         then 1 else 0) ∧
    ([email_doc; mkDocument "a@b.co, c@d.org and 10.0.0.1" []] = [] →
     alerts = []).
Proof.
  apply (scan_one_label_per_pattern (demo_state true)
           [email_doc; mkDocument "a@b.co, c@d.org and 10.0.0.1" []]).
  reflexivity.
Defined.

(** ** The disabled scanner *)

(** C3. With scanning disabled, [scan_for_secrets] returns the empty list
    for every chunk list and leaves the state as it was: in particular the
    trace gains no [EvFindall], so no pattern is evaluated. *)
Theorem scan_disabled_short_circuit (st : state) (docs : list Document) :
  enable_pii_detection (self st) = false →
  scan_for_secrets docs st = (Ok [], st).
Proof. apply scan_disabled_run. Qed.

Lemma scan_disabled_short_circuit_witness :
  hit email_re email_doc = true ∧
  scan_for_secrets [email_doc] (demo_state false) = (Ok [], demo_state false).
Proof.
  split; [vm_compute; reflexivity|].
  apply (scan_disabled_short_circuit (demo_state false) [email_doc]).
  reflexivity.
Defined.

(** ** Letter case *)

Lemma all_findings_with_text (f : ascii → ascii) docs :
  (∀ c, to_lower (f c) = to_lower c) →
  all_findings (with_text (str_map f) <$> docs) = all_findings docs.
Proof.
  intros Hf. unfold all_findings. rewrite flat_map_fmap.
  apply flat_map_equal. intros d. unfold compose, doc_findings.
  apply flat_map_equal. intros lr. by rewrite (hit_with_text f Hf).
Qed.

Lemma scan_with_text (f : ascii → ascii) st docs :
  (∀ c, to_lower (f c) = to_lower c) →
  (scan_for_secrets (with_text (str_map f) <$> docs) st).1
  = (scan_for_secrets docs st).1.
Proof.
  intros Hf. destruct (enable_pii_detection (self st)) eqn:En.
  - rewrite !scan_enabled_run by done. simpl.
    by rewrite (all_findings_with_text f docs Hf).
  - by rewrite !scan_disabled_run.
Qed.

(** On text of ASCII characters [str.upper] and [str.lower] are the maps
    [to_upper] and [to_lower]. *)
Lemma upper_char_ascii c :
  code c < 128 → upper_char c = Some (String (to_upper c) EmptyString).
Proof.
  destruct c as [[] [] [] [] [] [] [] []]; vm_compute; first [reflexivity|lia].
Qed.

Lemma lower_char_ascii c : code c < 128 → lower_char c = to_lower c.
Proof.
  destruct c as [[] [] [] [] [] [] [] []]; vm_compute; first [reflexivity|lia].
Qed.

Lemma str_upper_ascii s :
  is_ascii s = true → str_upper s = Some (str_map to_upper s).
Proof.
  unfold is_ascii. induction s as [|c s IH]; simpl; [done|].
  intros [Hc Hs]%andb_true_iff. apply Nat.ltb_lt in Hc.
  by rewrite (upper_char_ascii c Hc), (IH Hs).
Qed.

Lemma str_lower_ascii s :
  is_ascii s = true → str_lower s = str_map to_lower s.
Proof.
  unfold is_ascii, str_lower. induction s as [|c s IH]; simpl; [done|].
  intros [Hc Hs]%andb_true_iff. apply Nat.ltb_lt in Hc.
  by rewrite (lower_char_ascii c Hc), (IH Hs).
Qed.

(** C9, as stated, fails.  The chunk "AKIA00000000000000" followed by U+00DF
    raises no alert: the AWS pattern wants sixteen characters of [0-9A-Z]
    after AKIA and finds fourteen, U+00DF being no member of the set even
    under [re.IGNORECASE].  [str.upper] turns U+00DF into SS, and the
    upper-cased chunk is an AWS access key. *)
Lemma scan_changes_under_str_upper :
  str_upper ("AKIA00000000000000" +:+ String "223"%char EmptyString)
  = Some "AKIA00000000000000SS" ∧
  (scan_for_secrets
     [mkDocument ("AKIA00000000000000" +:+ String "223"%char EmptyString) []]
     (demo_state true)).1 = Ok [] ∧
  (scan_for_secrets [mkDocument "AKIA00000000000000SS" []] (demo_state true)).1
  = Ok ["AWS Access Key pattern detected in source chunk"].
Proof. vm_compute. done. Qed.

(** C9, amended.  For every list of chunks, the scanner's result is the same
    when the ASCII letters of the chunks' text are all upper-cased, or all
    lower-cased, every other character being kept. *)
Theorem scan_blind_to_ascii_case (st : state) (docs : list Document) :
  (scan_for_secrets (with_text (str_map to_upper) <$> docs) st).1
  = (scan_for_secrets docs st).1 ∧
  (scan_for_secrets (with_text (str_map to_lower) <$> docs) st).1
  = (scan_for_secrets docs st).1.
Proof.
  split; apply scan_with_text.
  - apply to_lower_to_upper.
  - apply to_lower_idemp.
Qed.

(** ** The constructor *)

Lemma validate_without_key w pdf :
  getenv w "OPENAI_API_KEY" = None →
  _validate_environment w pdf
  = Raise (ValueError
      "OPENAI_API_KEY environment variable not set. Please set it before running.").
Proof. unfold _validate_environment. by intros ->. Qed.

Lemma init_ok_fresh w pdf size overlap model temp store_path pii obj :
  __init__ w pdf size overlap model temp store_path pii = Ok obj →
  vectorstore obj = None ∧ qa_chain obj = None.
Proof.
  unfold __init__. destruct (_validate_environment w pdf); [|done].
  by intros [= <-].
Qed.

(** C10. Whatever the arguments, when OPENAI_API_KEY is not set the
    constructor raises a [ValueError] whose message names OPENAI_API_KEY; no
    object comes out of it, and the constructor consults nothing but the
    world (it is given no service to load or process a document with). *)
Theorem init_requires_api_key (w : World) (pdf : string) (size overlap : Z)
    (model : string) (temp : Q) (store_path : option string) (pii : bool) :
  getenv w "OPENAI_API_KEY" = None →
  ∃ msg : string,
    __init__ w pdf size overlap model temp store_path pii
    = Raise (ValueError msg) ∧
    str_contains "OPENAI_API_KEY" msg = true.
Proof.
  intros Hkey. unfold __init__. rewrite (validate_without_key w pdf Hkey).
  eexists. split; [reflexivity|]. vm_compute. reflexivity.
Qed.

Lemma init_requires_api_key_witness :
  ∃ msg : string,
    __init__ (mkWorld ∅ {["data/sample_security_policy.pdf"]})
      "data/sample_security_policy.pdf" 1000 200 "gpt-4o" 0 None false
    = Raise (ValueError msg) ∧
    str_contains "OPENAI_API_KEY" msg = true.
Proof.
  apply (init_requires_api_key
           (mkWorld ∅ {["data/sample_security_policy.pdf"]})).
  reflexivity.
Defined.

(** C7, as stated, fails.  With the document missing and OPENAI_API_KEY not
    set, the constructor raises the [ValueError] about the key, not an error
    about the document. *)
Lemma init_missing_pdf_and_key :
  path_exists (mkWorld ∅ ∅) "nonexistent.pdf" = false ∧
  raised (new_researcher (mkWorld ∅ ∅) "nonexistent.pdf")
  = Some (ValueError
      "OPENAI_API_KEY environment variable not set. Please set it before running.").
Proof. vm_compute. done. Qed.

(** C7, amended.  When OPENAI_API_KEY is set to a non-empty value and the
    document path does not exist, the constructor raises
    [FileNotFoundError] with the message "PDF file not found: <path>"; no
    object, hence no vector store and no QA chain, comes out of it. *)
Theorem init_requires_existing_pdf (w : World) (pdf : string) (size overlap : Z)
    (model : string) (temp : Q) (store_path : option string) (pii : bool)
    (key : string) :
  getenv w "OPENAI_API_KEY" = Some key →
  key ≠ EmptyString →
  path_exists w pdf = false →
  __init__ w pdf size overlap model temp store_path pii
  = Raise (FileNotFoundError ("PDF file not found: " +:+ pdf)).
Proof.
  intros Hkey Hne Hpdf. unfold __init__, _validate_environment.
  rewrite Hkey, Hpdf. by destruct key.
Qed.

Lemma init_requires_existing_pdf_witness :
  new_researcher demo_world "nonexistent.pdf"
  = Raise (FileNotFoundError "PDF file not found: nonexistent.pdf").
Proof.
  apply (init_requires_existing_pdf demo_world "nonexistent.pdf" 1000 200
           "gpt-4o" 0 None false "test-key-12345").
  - reflexivity.
  - discriminate.
  - vm_compute. reflexivity.
Defined.

(** ** Methods *)

Section MethodProperties.
Context (svc : Services).

(** C6, amended.  While the QA chain is not set, [query] raises
    [ValueError] with the message "QA chain not initialized. Call
    setup_qa_chain first." and changes nothing: the chain is not invoked and
    the trace stays as it was. *)
Theorem query_requires_qa_chain (question : string) (st : state) :
  qa_chain (self st) = None →
  query svc question st
  = (Raise (ValueError "QA chain not initialized. Call setup_qa_chain first."),
     st).
Proof. intros Hnone. unfold query. run. by rewrite Hnone. Qed.

(** Only [setup_qa_chain], the last step of [initialize], sets the chain:
    an [initialize] that raised has not set it. *)
Lemma load_and_process_keeps_self st :
  self (load_and_process_document svc st).2 = self st.
Proof.
  unfold load_and_process_document. run.
  destruct (pdf_loader_load svc _ _); simpl; [|done].
  by destruct (split_documents svc _ _ _).
Qed.

Lemma create_vectorstore_keeps_chain chunks force st :
  qa_chain (self (create_vectorstore svc chunks force st).2) = qa_chain (self st).
Proof.
  unfold create_vectorstore. run.
  destruct (path_exists _ _ && negb force).
  - by destruct (faiss_load_local svc _ _ _).
  - destruct (faiss_from_documents svc _ _ _); simpl; [|done].
    by destruct (faiss_save_local svc _ _ _).
Qed.

Lemma initialize_raise_no_chain force st e st' :
  qa_chain (self st) = None →
  initialize svc force st = (Raise e, st') →
  qa_chain (self st') = None.
Proof.
  intros Hnone. unfold initialize, mbind, M_bind.
  pose proof (load_and_process_keeps_self st) as Hl.
  destruct (load_and_process_document svc st) as [[chunks|e1] st1]; simpl in Hl.
  - pose proof (create_vectorstore_keeps_chain chunks force st1) as Hc.
    destruct (create_vectorstore svc chunks force st1) as [[[]|e2] st2];
      simpl in Hc.
    + unfold setup_qa_chain. run. destruct (vectorstore (self st2)); [done|].
      intros [= _ <-]. by rewrite Hc, Hl.
    + intros [= _ <-]. by rewrite Hc, Hl.
  - intros [= _ <-]. by rewrite Hl.
Qed.

(** C5. [create_vectorstore] either reuses or rebuilds.  When the
    configured path exists and [force_recreate] is false, its only call is
    [FAISS.load_local] on that path: nothing is embedded or saved, the world
    is unchanged, and the loaded store becomes the object's vector store.
    Otherwise its first call is [FAISS.from_documents] on the chunks; once
    this has returned a store, the store becomes the object's vector store
    and is saved to the configured path, and [load_local] is not called. *)
Theorem create_vectorstore_reuse_policy (chunks : list Document)
    (force_recreate : bool) (st : state) :
  let path := vectorstore_path (self st) in
  let out := create_vectorstore svc chunks force_recreate st in
  if path_exists (world st) path && negb force_recreate
  then
    trace out.2 = trace st ++ [EvLoadLocal path] ∧
    world out.2 = world st ∧
    match faiss_load_local svc path OpenAIEmbeddings (world st) with
    | Ok store => out.1 = Ok tt ∧ vectorstore (self out.2) = Some store
    | Raise e => out.1 = Raise e ∧ self out.2 = self st
    end
  else
    match faiss_from_documents svc chunks OpenAIEmbeddings (world st) with
    | Ok store =>
        trace out.2
        = trace st ++ [EvFromDocuments chunks; EvSaveLocal store path] ∧
        vectorstore (self out.2) = Some store ∧
        match faiss_save_local svc store path (world st) with
        | Ok w' => out.1 = Ok tt ∧ world out.2 = w'
        | Raise e => out.1 = Raise e ∧ world out.2 = world st
        end
    | Raise e =>
        out.1 = Raise e ∧
        trace out.2 = trace st ++ [EvFromDocuments chunks] ∧
        world out.2 = world st ∧ self out.2 = self st
    end.
Proof.
  intros path out. subst path out. unfold create_vectorstore. run.
  destruct (path_exists _ _ && negb force_recreate).
  - by destruct (faiss_load_local svc _ _ _).
  - destruct (faiss_from_documents svc _ _ _) as [store|e]; simpl; [|done].
    destruct (faiss_save_local svc _ _ _); simpl;
      by rewrite <- app_assoc.
Qed.

End MethodProperties.

Lemma query_requires_qa_chain_witness :
  query stub "test question" (demo_state false)
  = (Raise (ValueError "QA chain not initialized. Call setup_qa_chain first."),
     demo_state false).
Proof. apply (query_requires_qa_chain stub). reflexivity. Defined.

(** C6, as stated, fails.  The exception [query] raises on a freshly
    constructed object is of class [ValueError]; the program has no class
    named PipelineNotInitializedError. *)
Lemma query_uninitialized_is_ValueError :
  new_researcher demo_world "data/sample_security_policy.pdf"
  = Ok (demo_researcher false) ∧
  exn_class <$> raised (query stub "test question" (demo_state false)).1
  = Some "ValueError" ∧
  exn_class <$> raised (query stub "test question" (demo_state false)).1
  ≠ Some "PipelineNotInitializedError".
Proof. vm_compute. done. Qed.

(** ** Retrieval *)

Lemma length_insert_ranked e l : length (insert_ranked e l) = S (length l).
Proof.
  induction l as [|e' l IH]; simpl; [done|].
  destruct (Qle_bool e'.2 e.2); simpl; [done|by rewrite IH].
Qed.

Lemma length_rank l : length (rank l) = length l.
Proof.
  induction l as [|e l IH]; simpl; [done|].
  by rewrite length_insert_ranked, IH.
Qed.

Lemma Forall_insert_ranked (P : Chunk * Q → Prop) e l :
  P e → Forall P l → Forall P (insert_ranked e l).
Proof.
  intros He. induction 1 as [|e' l He' Hl IH]; simpl.
  - by constructor.
  - destruct (Qle_bool e'.2 e.2); repeat constructor; auto.
Qed.

Lemma insert_ranked_sorted e l :
  StronglySorted descending l → StronglySorted descending (insert_ranked e l).
Proof.
  induction 1 as [|e' l Hl IH Hall]; simpl.
  - repeat constructor.
  - destruct (Qle_bool e'.2 e.2) eqn:E.
    + apply Qle_bool_iff in E. constructor; [by constructor|].
      constructor; [exact E|].
      eapply Forall_impl; [exact Hall|]. intros x Hx. unfold descending in *.
      by eapply Qle_trans.
    + constructor; [exact IH|]. apply Forall_insert_ranked; [|exact Hall].
      unfold descending. apply Qlt_le_weak, Qnot_le_lt.
      intros Hle%Qle_bool_iff. congruence.
Qed.

Lemma rank_sorted l : StronglySorted descending (rank l).
Proof.
  induction l as [|e l IH]; simpl; [constructor|by apply insert_ranked_sorted].
Qed.

Lemma take_sorted {A} (R : A → A → Prop) k (l : list A) :
  StronglySorted R l → StronglySorted R (take k l).
Proof.
  intros H. revert k. induction H as [|x l Hl IH Hall]; intros [|k]; simpl;
    try constructor; [apply IH|].
  by apply Forall_take.
Qed.

(** The chain [setup_qa_chain] builds retrieves with [k = 4] from the
    object's vector store. *)
Lemma setup_qa_chain_top_k st st' :
  setup_qa_chain st = (Ok tt, st') →
  ∃ chain, qa_chain (self st') = Some chain ∧
           search_k (qa_retriever chain) = 4%Z ∧
           vectorstore (self st) = Some (retriever_store (qa_retriever chain)).
Proof.
  unfold setup_qa_chain. run. destruct (vectorstore (self st)); [|done].
  intros [= <-]. simpl. eauto.
Qed.

(** C8. For every index, query vector and [k] (the program asks for
    [k = 4]), the query returns at most [k] entries, fewer exactly when the
    index holds fewer than [k] vectors, in descending order of score; on the
    empty index it returns the empty sequence. *)
Theorem vector_query_top_k (index : VectorIndex) (query_vector : list Q)
    (k : nat) :
  length (vector_query index query_vector k) ≤ k ∧
  (length (vector_query index query_vector k) < k ↔ length index < k) ∧
  StronglySorted descending (vector_query index query_vector k) ∧
  vector_query [] query_vector k = [].
Proof.
  unfold vector_query.
  rewrite length_take, length_rank, length_fmap.
  split; [lia|]. split; [lia|]. split.
  - apply take_sorted, rank_sorted.
  - by destruct k.
Qed.

(** ** Chunking

    [load_and_process_document] hands the pages to the library's splitter
    with the object's [chunk_size] and [chunk_overlap] and returns the
    splitter's chunks as they are. *)
Lemma load_and_process_returns_split (svc : Services) (st : state)
    (pages chunks : list Document) :
  pdf_loader_load svc (pdf_path (self st)) (world st) = Ok pages →
  split_documents svc (chunk_size (self st)) (chunk_overlap (self st)) pages
  = Ok chunks →
  load_and_process_document svc st
  = (Ok chunks,
     logged st [EvPdfLoad (pdf_path (self st));
                EvSplit (chunk_size (self st)) (chunk_overlap (self st)) pages]).
Proof.
  intros Hload Hsplit. unfold load_and_process_document, logged. run.
  rewrite Hload. simpl. rewrite Hsplit. by rewrite <- app_assoc.
Qed.

(** ** Runs of the pipeline on the stand-in services *)

Example scan_detects_email :
  (scan_for_secrets [email_doc] (demo_state true)).1
  = Ok ["Email Address pattern detected in source chunk"].
Proof. vm_compute. reflexivity. Qed.

Example create_vectorstore_builds_when_missing :
  trace (create_vectorstore stub [email_doc] false (demo_state false)).2
  = [EvFromDocuments [email_doc]; EvSaveLocal (FAISS 1) "./vectorstore"].
Proof. vm_compute. reflexivity. Qed.

Example create_vectorstore_loads_when_present :
  let w := mkWorld (environ demo_world) ({["./vectorstore"]} ∪ files demo_world) in
  trace (create_vectorstore stub [email_doc] false
           (mkState (demo_researcher false) w [])).2
  = [EvLoadLocal "./vectorstore"].
Proof. vm_compute. reflexivity. Qed.

Example create_vectorstore_builds_when_forced :
  let w := mkWorld (environ demo_world) ({["./vectorstore"]} ∪ files demo_world) in
  trace (create_vectorstore stub [email_doc] true
           (mkState (demo_researcher false) w [])).2
  = [EvFromDocuments [email_doc]; EvSaveLocal (FAISS 1) "./vectorstore"].
Proof. vm_compute. reflexivity. Qed.

Example initialize_then_query :
  security_alerts
  <$> value_of (initialize stub false;; query stub "Who to contact?")
        (demo_state true)
  = Some (Some ["Email Address pattern detected in source chunk"]).
Proof. vm_compute. reflexivity. Qed.

(* ================================================================== *)
(** * Part III.  Further properties of [main.py] *)
(* ================================================================== *)

(** ** How the methods run *)

Lemma scan_keeps_object docs st :
  self (scan_for_secrets docs st).2 = self st ∧
  world (scan_for_secrets docs st).2 = world st.
Proof.
  destruct (enable_pii_detection (self st)) eqn:En.
  - by rewrite scan_enabled_run.
  - by rewrite scan_disabled_run.
Qed.

Lemma setup_qa_chain_run st :
  setup_qa_chain st
  = match vectorstore (self st) with
    | None =>
        (Raise (ValueError
           "Vectorstore not initialized. Call create_vectorstore first."), st)
    | Some store =>
        (Ok tt,
         mkState
           (set_qa_chain
              (Some (mkRetrievalQA
                       (mkChatOpenAI (model_name (self st)) (temperature (self st)))
                       "stuff" (mkRetriever store 4) true))
              (self st))
           (world st) (trace st))
    end.
Proof. unfold setup_qa_chain. run. by destruct (vectorstore (self st)). Qed.

Lemma create_vectorstore_sets_store svc chunks force st st' :
  create_vectorstore svc chunks force st = (Ok tt, st') →
  ∃ store, self st' = set_vectorstore (Some store) (self st).
Proof.
  unfold create_vectorstore. run.
  destruct (path_exists _ _ && negb force).
  - destruct (faiss_load_local svc _ _ _) as [store|]; [|done].
    intros [= <-]. by exists store.
  - destruct (faiss_from_documents svc _ _ _) as [store|]; simpl; [|done].
    destruct (faiss_save_local svc _ _ _); [|done].
    intros [= <-]. by exists store.
Qed.

Lemma create_vectorstore_keeps_config svc chunks force st :
  config_of (self (create_vectorstore svc chunks force st).2)
  = config_of (self st).
Proof.
  unfold create_vectorstore. run.
  destruct (path_exists _ _ && negb force).
  - by destruct (faiss_load_local svc _ _ _).
  - destruct (faiss_from_documents svc _ _ _); simpl; [|done].
    by destruct (faiss_save_local svc _ _ _).
Qed.

Lemma query_run svc question st chain :
  qa_chain (self st) = Some chain →
  query svc question st
  = match chain_invoke svc chain question (world st) with
    | Raise e => (Raise e, logged st [EvInvoke chain question])
    | Ok response =>
        if enable_pii_detection (self st) then
          match elements (list_to_set
                            (all_findings (source_documents response))
                          : gset string) with
          | [] => (Ok response,
                   logged st (EvInvoke chain question
                              :: scan_events (source_documents response)))
          | a :: alerts =>
              (Ok (mkResponse (response_result response)
                     (source_documents response) (Some (a :: alerts))),
               logged st (EvInvoke chain question
                          :: scan_events (source_documents response)))
          end
        else (Ok response, logged st [EvInvoke chain question])
    end.
Proof.
  intros Hc. unfold query, mbind, M_bind, get_self. rewrite Hc. unfold call.
  destruct (chain_invoke svc chain question (world st)) as [response|e];
    [|done].
  cbn [self]. destruct (enable_pii_detection (self st)) eqn:En; [|done].
  rewrite scan_enabled_run by done. unfold logged; cbn [self world trace].
  rewrite <- app_assoc.
  by destruct (elements _).
Qed.

(** ** [setup_qa_chain] *)

(** X1. Before a vector store is set, [setup_qa_chain] raises [ValueError]
    with the message "Vectorstore not initialized. Call create_vectorstore
    first." and changes nothing. *)
Theorem setup_qa_chain_requires_vectorstore (st : state) :
  vectorstore (self st) = None →
  setup_qa_chain st
  = (Raise (ValueError
       "Vectorstore not initialized. Call create_vectorstore first."), st).
Proof. intros Hv. by rewrite setup_qa_chain_run, Hv. Qed.

Lemma setup_qa_chain_requires_vectorstore_witness :
  setup_qa_chain (demo_state false)
  = (Raise (ValueError
       "Vectorstore not initialized. Call create_vectorstore first."),
     demo_state false).
Proof.
  apply (setup_qa_chain_requires_vectorstore (demo_state false)). reflexivity.
Defined.

(** ** [initialize] *)

Lemma initialize_ok (svc : Services) (force_recreate : bool)
    (st st' : state) :
  initialize svc force_recreate st = (Ok tt, st') →
  ∃ store : VectorStore,
    vectorstore (self st') = Some store ∧
    qa_chain (self st')
    = Some (mkRetrievalQA
              (mkChatOpenAI (model_name (self st)) (temperature (self st)))
              "stuff" (mkRetriever store 4) true) ∧
    config_of (self st') = config_of (self st).
Proof.
  unfold initialize, mbind, M_bind.
  pose proof (load_and_process_keeps_self svc st) as Hl.
  destruct (load_and_process_document svc st) as [[chunks|e1] st1];
    simpl in Hl; [|done].
  pose proof (create_vectorstore_keeps_config svc chunks force_recreate st1) as Hk.
  destruct (create_vectorstore svc chunks force_recreate st1)
    as [[[]|e2] st2] eqn:Hc; simpl in Hk; [|done].
  apply create_vectorstore_sets_store in Hc as [store Hs].
  rewrite setup_qa_chain_run, Hs. simpl. intros [= <-]. simpl.
  exists store. rewrite Hl. split; [done|]. split; [done|].
  rewrite Hs, Hl in Hk. exact Hk.
Qed.

(** X2. When [initialize] returns, the object has a vector store and a QA
    chain over that very store: chain type "stuff", [k = 4], source documents
    returned, and a model with the object's [model_name] and [temperature];
    the configuration attributes are those it had before. *)
Theorem initialize_sets_up_chain (svc : Services) (force_recreate : bool)
    (st st' : state) :
  initialize svc force_recreate st = (Ok tt, st') →
  ∃ store : VectorStore,
    vectorstore (self st') = Some store ∧
    qa_chain (self st')
    = Some (mkRetrievalQA
              (mkChatOpenAI (model_name (self st)) (temperature (self st)))
              "stuff" (mkRetriever store 4) true) ∧
    config_of (self st') = config_of (self st).
Proof. apply initialize_ok. Qed.

Lemma initialize_sets_up_chain_witness :
  ∃ store : VectorStore,
    vectorstore (self (initialize stub false (demo_state true)).2) = Some store ∧
    qa_chain (self (initialize stub false (demo_state true)).2)
    = Some (mkRetrievalQA
              (mkChatOpenAI (model_name (self (demo_state true)))
                 (temperature (self (demo_state true))))
              "stuff" (mkRetriever store 4) true) ∧
    config_of (self (initialize stub false (demo_state true)).2)
    = config_of (self (demo_state true)).
Proof.
  apply (initialize_sets_up_chain stub false (demo_state true)).
  vm_compute. reflexivity.
Defined.

(** X3. When the document loader raises, [initialize] raises the same
    exception at once: the loader's is the only call made, and the object
    and the world are as before. *)
Theorem initialize_stops_at_loader (svc : Services) (force_recreate : bool)
    (st : state) (e : exn) :
  pdf_loader_load svc (pdf_path (self st)) (world st) = Raise e →
  initialize svc force_recreate st
  = (Raise e, logged st [EvPdfLoad (pdf_path (self st))]).
Proof.
  intros Hload. unfold initialize, load_and_process_document. run.
  by rewrite Hload.
Qed.

Lemma initialize_stops_at_loader_witness :
  initialize stub_without_loader false (demo_state false)
  = (Raise (LibraryError "PdfReadError" "cannot read document"),
     logged (demo_state false) [EvPdfLoad "data/sample_security_policy.pdf"]).
Proof.
  apply (initialize_stops_at_loader stub_without_loader false (demo_state false)).
  reflexivity.
Defined.

(** X4. An [initialize] that raised on an object without a chain leaves it
    without one: a [query] that follows raises the "QA chain not
    initialized" [ValueError] and invokes nothing. *)
Theorem query_after_failed_initialize (svc : Services) (force_recreate : bool)
    (question : string) (st st' : state) (e : exn) :
  qa_chain (self st) = None →
  initialize svc force_recreate st = (Raise e, st') →
  query svc question st'
  = (Raise (ValueError "QA chain not initialized. Call setup_qa_chain first."),
     st').
Proof.
  intros Hnone Hinit.
  pose proof (initialize_raise_no_chain svc force_recreate st e st' Hnone Hinit)
    as Hc.
  unfold query. run. by rewrite Hc.
Qed.

Lemma query_after_failed_initialize_witness :
  query stub_without_loader "test question"
    (initialize stub_without_loader false (demo_state false)).2
  = (Raise (ValueError "QA chain not initialized. Call setup_qa_chain first."),
     (initialize stub_without_loader false (demo_state false)).2).
Proof.
  apply (query_after_failed_initialize stub_without_loader false "test question"
           (demo_state false) _
           (LibraryError "PdfReadError" "cannot read document")).
  - reflexivity.
  - vm_compute. reflexivity.
Defined.

(** ** [query] *)

(** X5. [query] never changes the object or the world, whether it returns
    or raises: a failed query leaves the pipeline as it was. *)
Theorem query_keeps_object (svc : Services) (question : string) (st : state) :
  self (query svc question st).2 = self st ∧
  world (query svc question st).2 = world st.
Proof.
  destruct (qa_chain (self st)) as [chain|] eqn:Hc.
  - rewrite (query_run svc question st chain Hc).
    destruct (chain_invoke svc chain question (world st)); [|done].
    destruct (enable_pii_detection (self st)); [|done].
    by destruct (elements _).
  - unfold query. run. by rewrite Hc.
Qed.

(** X6. An exception of the chain comes out of [query] as it is, after the
    one invocation; no pattern is evaluated. *)
Theorem query_propagates_chain_error (svc : Services) (question : string)
    (st : state) (chain : RetrievalQA) (e : exn) :
  qa_chain (self st) = Some chain →
  chain_invoke svc chain question (world st) = Raise e →
  query svc question st = (Raise e, logged st [EvInvoke chain question]).
Proof. intros Hc He. by rewrite (query_run svc question st chain Hc), He. Qed.

(** X7. With detection off, [query] returns the chain's response as it is
    and makes no call but the invocation. *)
Theorem query_without_detection (svc : Services) (question : string)
    (st : state) (chain : RetrievalQA) (response : Response) :
  qa_chain (self st) = Some chain →
  enable_pii_detection (self st) = false →
  chain_invoke svc chain question (world st) = Ok response →
  query svc question st = (Ok response, logged st [EvInvoke chain question]).
Proof.
  intros Hc Dis Hr. by rewrite (query_run svc question st chain Hc), Hr, Dis.
Qed.

(** X8. With detection on, [query] keeps the answer and the source
    documents of the chain's response; it adds [security_alerts], holding
    what [scan_for_secrets] returns on the source documents, exactly when
    that is not empty, and otherwise returns the response as it is. *)
Theorem query_with_detection (svc : Services) (question : string)
    (st : state) (chain : RetrievalQA) (response : Response) :
  qa_chain (self st) = Some chain →
  enable_pii_detection (self st) = true →
  chain_invoke svc chain question (world st) = Ok response →
  ∃ (answer : Response) (alerts : list string),
    (query svc question st).1 = Ok answer ∧
    (scan_for_secrets (source_documents response) st).1 = Ok alerts ∧
    response_result answer = response_result response ∧
    source_documents answer = source_documents response ∧
    (if bool_decide (alerts = []) then answer = response
     else security_alerts answer = Some alerts).
Proof.
  intros Hc En Hr. rewrite (query_run svc question st chain Hc), Hr, En.
  rewrite scan_enabled_run by done. cbn [fst].
  destruct (elements _) as [|a alerts]; eexists _, _; repeat split.
Qed.

Lemma query_propagates_chain_error_witness :
  query stub_without_chain "test question" (ready_state true)
  = (Raise (LibraryError "APIConnectionError" "connection error"),
     logged (ready_state true) [EvInvoke ready_chain "test question"]).
Proof.
  apply (query_propagates_chain_error stub_without_chain "test question"
           (ready_state true) ready_chain); reflexivity.
Defined.

Lemma query_without_detection_witness :
  query stub "test question" (ready_state false)
  = (Ok (mkResponse "answer" [mkDocument "see a@b.co" []] None),
     logged (ready_state false) [EvInvoke ready_chain "test question"]).
Proof.
  apply (query_without_detection stub "test question" (ready_state false)
           ready_chain); reflexivity.
Defined.

Lemma query_with_detection_witness :
  ∃ (answer : Response) (alerts : list string),
    (query stub "test question" (ready_state true)).1 = Ok answer ∧
    (scan_for_secrets [mkDocument "see a@b.co" []] (ready_state true)).1
    = Ok alerts ∧
    response_result answer = "answer" ∧
    source_documents answer = [mkDocument "see a@b.co" []] ∧
    (if bool_decide (alerts = []) then
       answer = mkResponse "answer" [mkDocument "see a@b.co" []] None
     else security_alerts answer = Some alerts).
Proof.
  apply (query_with_detection stub "test question" (ready_state true)
           ready_chain (mkResponse "answer" [mkDocument "see a@b.co" []] None));
    reflexivity.
Defined.

(** ** The constructor, continued *)

Lemma init_ok_config w pdf size overlap model temp store_path pii obj :
  __init__ w pdf size overlap model temp store_path pii = Ok obj →
  config_of obj
  = (pdf, size, overlap, model, temp,
     match store_path with
     | None | Some EmptyString => "./vectorstore"
     | Some p => p
     end, pii).
Proof.
  unfold __init__. destruct (_validate_environment w pdf); [|done].
  by intros [= <-].
Qed.

(** X9. The constructor returns an object exactly when OPENAI_API_KEY is set
    to a non-empty value and the document path exists; the object then holds
    the arguments, "./vectorstore" in place of a missing or empty
    [vectorstore_path], and neither a vector store nor a QA chain. *)
Theorem init_succeeds_iff (w : World) (pdf : string) (size overlap : Z)
    (model : string) (temp : Q) (store_path : option string) (pii : bool)
    (obj : SecureRAGResearcher) :
  __init__ w pdf size overlap model temp store_path pii = Ok obj ↔
  (∃ key, getenv w "OPENAI_API_KEY" = Some key ∧ key ≠ EmptyString) ∧
  path_exists w pdf = true ∧
  config_of obj
  = (pdf, size, overlap, model, temp,
     match store_path with
     | None | Some EmptyString => "./vectorstore"
     | Some p => p
     end, pii) ∧
  vectorstore obj = None ∧ qa_chain obj = None.
Proof.
  unfold __init__, _validate_environment, config_of. split.
  - destruct (getenv w "OPENAI_API_KEY") as [[|c key]|]; [done| |done].
    destruct (path_exists w pdf); [|done]. simpl. intros [= <-]. simpl.
    split; [by eexists|done].
  - intros ((key & -> & Hne) & -> & Hcfg & Hv & Hq).
    destruct key as [|c key]; [done|]. simpl. f_equal.
    destruct obj; simpl in *. by simplify_eq.
Qed.

(** X10. An OPENAI_API_KEY set to the empty string is refused like a missing
    one: the constructor raises the [ValueError] about the key, whether or
    not the document exists. *)
Theorem init_rejects_empty_api_key (w : World) (pdf : string) (size overlap : Z)
    (model : string) (temp : Q) (store_path : option string) (pii : bool) :
  getenv w "OPENAI_API_KEY" = Some EmptyString →
  __init__ w pdf size overlap model temp store_path pii
  = Raise (ValueError
      "OPENAI_API_KEY environment variable not set. Please set it before running.").
Proof. intros Hkey. unfold __init__, _validate_environment. by rewrite Hkey. Qed.

Lemma init_rejects_empty_api_key_witness :
  new_researcher
    (mkWorld {["OPENAI_API_KEY" := ""]} {["data/sample_security_policy.pdf"]})
    "data/sample_security_policy.pdf"
  = Raise (ValueError
      "OPENAI_API_KEY environment variable not set. Please set it before running.").
Proof.
  apply (init_rejects_empty_api_key
           (mkWorld {["OPENAI_API_KEY" := ""]}
                    {["data/sample_security_policy.pdf"]})).
  reflexivity.
Defined.

(** ** The scanner, continued *)

(** X11. With detection on, [scan_for_secrets] evaluates every registry
    pattern on every chunk, once each: seven evaluations per chunk, in the
    order of the chunks. *)
Theorem scan_evaluates_every_pattern (st : state) (docs : list Document) :
  enable_pii_detection (self st) = true →
  trace (scan_for_secrets docs st).2
  = trace st
    ++ (docs ≫= λ d, (λ entry : string * regex,
                         EvFindall entry.1 (page_content d)) <$> patterns) ∧
  length (trace (scan_for_secrets docs st).2)
  = length (trace st) + 7 * length docs.
Proof.
  intros En. rewrite scan_enabled_run by done. cbn [snd logged trace].
  assert (scan_events docs
          = docs ≫= λ d, (λ entry : string * regex,
                             EvFindall entry.1 (page_content d)) <$> patterns)
    as <-.
  { unfold scan_events. induction docs as [|d docs IH]; [done|].
    cbn [flat_map]. by rewrite IH. }
  split; [done|]. rewrite length_app. f_equal.
  induction docs as [|d docs IH]; [done|].
  change (scan_events (d :: docs))
    with (((λ lr : string * regex, EvFindall lr.1 (page_content d)) <$> patterns)
          ++ scan_events docs).
  rewrite length_app, IH, length_fmap. simpl. lia.
Qed.

Lemma scan_evaluates_every_pattern_witness :
  trace (scan_for_secrets [email_doc] (demo_state true)).2
  = trace (demo_state true)
    ++ ([email_doc] ≫= λ d, (λ entry : string * regex,
                               EvFindall entry.1 (page_content d)) <$> patterns) ∧
  length (trace (scan_for_secrets [email_doc] (demo_state true)).2)
  = length (trace (demo_state true)) + 7 * length [email_doc].
Proof.
  apply (scan_evaluates_every_pattern (demo_state true) [email_doc]).
  reflexivity.
Defined.

(** X12. The result of [scan_for_secrets] grows with the chunks: every
    alert raised for a list of chunks is raised for any list that holds the
    same chunks, in whatever order and number.  Lists with the same chunks
    therefore get the same alerts. *)
Theorem scan_monotone (st : state) (docs1 docs2 : list Document) :
  (∀ d, d ∈ docs1 → d ∈ docs2) →
  ∃ alerts1 alerts2 : list string,
    (scan_for_secrets docs1 st).1 = Ok alerts1 ∧
    (scan_for_secrets docs2 st).1 = Ok alerts2 ∧
    ∀ a, a ∈ alerts1 → a ∈ alerts2.
Proof.
  intros Hsub. destruct (enable_pii_detection (self st)) eqn:En.
  - rewrite !scan_enabled_run by done. eexists _, _. split; [done|].
    split; [done|]. intros a.
    rewrite !elem_of_elements, !elem_of_list_to_set, !elem_of_all_findings.
    intros (d & lr & Hd & H). exists d, lr. split; [by apply Hsub|done].
  - rewrite !scan_disabled_run by done. by eexists _, _.
Qed.

Lemma scan_monotone_witness :
  ∃ alerts1 alerts2 : list string,
    (scan_for_secrets [email_doc] (demo_state true)).1 = Ok alerts1 ∧
    (scan_for_secrets [mkDocument "call 555-123-4567" []; email_doc; email_doc]
       (demo_state true)).1 = Ok alerts2 ∧
    ∀ a, a ∈ alerts1 → a ∈ alerts2.
Proof.
  apply (scan_monotone (demo_state true) [email_doc]
           [mkDocument "call 555-123-4567" []; email_doc; email_doc]).
  intros d ->%list_elem_of_singleton. apply elem_of_cons. right.
  apply elem_of_cons. by left.
Defined.

(** ** The script [main] *)

Lemma load_and_process_trace svc st :
  ∃ evs, trace (load_and_process_document svc st).2 = trace st ++ evs ∧
         Forall (λ ev, is_findall ev = false ∧ is_invoke ev = false) evs.
Proof.
  unfold load_and_process_document. run.
  destruct (pdf_loader_load svc _ _) as [pages|]; simpl.
  - destruct (split_documents svc _ _ _); simpl; rewrite <- app_assoc;
      eexists; (split; [reflexivity|]); repeat constructor.
  - eexists; (split; [reflexivity|]); repeat constructor.
Qed.

Lemma create_vectorstore_trace svc chunks force st :
  ∃ evs, trace (create_vectorstore svc chunks force st).2 = trace st ++ evs ∧
         Forall (λ ev, is_findall ev = false ∧ is_invoke ev = false) evs.
Proof.
  unfold create_vectorstore. run.
  destruct (path_exists _ _ && negb force).
  - destruct (faiss_load_local svc _ _ _); simpl;
      eexists; (split; [reflexivity|]); repeat constructor.
  - destruct (faiss_from_documents svc _ _ _); simpl.
    + destruct (faiss_save_local svc _ _ _); simpl; rewrite <- app_assoc;
        eexists; (split; [reflexivity|]); repeat constructor.
    + eexists; (split; [reflexivity|]); repeat constructor.
Qed.

Lemma setup_qa_chain_trace st : trace (setup_qa_chain st).2 = trace st.
Proof. rewrite setup_qa_chain_run. by destruct (vectorstore (self st)). Qed.

Lemma initialize_trace svc force st :
  ∃ evs, trace (initialize svc force st).2 = trace st ++ evs ∧
         Forall (λ ev, is_findall ev = false ∧ is_invoke ev = false) evs.
Proof.
  unfold initialize, mbind, M_bind.
  destruct (load_and_process_trace svc st) as (evs1 & H1 & F1).
  destruct (load_and_process_document svc st) as [[chunks|e1] st1];
    simpl in H1; [|by exists evs1].
  destruct (create_vectorstore_trace svc chunks force st1) as (evs2 & H2 & F2).
  destruct (create_vectorstore svc chunks force st1) as [[[]|e2] st2];
    simpl in H2.
  - exists (evs1 ++ evs2). rewrite setup_qa_chain_trace, H2, H1, app_assoc.
    split; [done|]. by apply Forall_app.
  - exists (evs1 ++ evs2). simpl. rewrite H2, H1, app_assoc.
    split; [done|]. by apply Forall_app.
Qed.

Lemma ask_run svc question st chain :
  qa_chain (self st) = Some chain →
  enable_pii_detection (self st) = false →
  ask svc tt question st
  = match chain_invoke svc chain question (world st) with
    | Ok _ => (Ok tt, logged st [EvInvoke chain question])
    | Raise e => (Raise e, logged st [EvInvoke chain question])
    end.
Proof.
  intros Hc Dis. unfold ask, mbind, M_bind.
  rewrite (query_run svc question st chain Hc), Dis.
  by destruct (chain_invoke svc chain question (world st)).
Qed.

(** The loop of [main] over its queries, detection being off: the chain is
    invoked on the queries in turn, up to the first that raises. *)
Lemma ask_all_run svc (qs : list string) st chain :
  qa_chain (self st) = Some chain →
  enable_pii_detection (self st) = false →
  ∃ n, n ≤ length qs ∧
    trace (for_each qs (ask svc) tt st).2
    = trace st ++ (EvInvoke chain <$> take n qs) ∧
    (∀ u, (for_each qs (ask svc) tt st).1 = Ok u → n = length qs).
Proof.
  revert st. induction qs as [|q qs IH]; intros st Hc Dis.
  - exists 0. simpl. rewrite app_nil_r. by split.
  - cbn [for_each]. unfold mbind, M_bind.
    rewrite (ask_run svc q st chain Hc Dis).
    destruct (chain_invoke svc chain q (world st)) as [response|e].
    + destruct (IH (logged st [EvInvoke chain q]) Hc Dis) as (n & Hn & Ht & Hok).
      exists (S n). split; [simpl; lia|]. split.
      * rewrite Ht. simpl. by rewrite <- app_assoc.
      * intros u Hu. f_equal/=. by eapply Hok.
    + exists 1. split; [simpl; lia|]. split; [by destruct qs|done].
Qed.

(** X13. [main] ends with status 1 and without a single library call when
    OPENAI_API_KEY is not set or "sample_security_policy.pdf" does not exist
    in the working directory; the world is left as it was. *)
Theorem main_needs_key_and_document (svc : Services) (w : World) :
  getenv w "OPENAI_API_KEY" = None ∨
  path_exists w "sample_security_policy.pdf" = false →
  main svc w = mkOutcome 1 w [].
Proof.
  intros H. unfold main, __init__, _validate_environment.
  destruct H as [-> | ->]; [done|].
  by destruct (getenv w "OPENAI_API_KEY") as [[|]|].
Qed.

Lemma main_needs_key_and_document_witness :
  main stub demo_world = mkOutcome 1 demo_world [].
Proof.
  apply (main_needs_key_and_document stub demo_world).
  right. vm_compute. reflexivity.
Defined.

(** X14. However the services behave, [main] never evaluates a registry
    pattern: it builds the researcher with detection off. *)
Theorem main_never_scans (svc : Services) (w : World) :
  Forall (λ ev, is_findall ev = false) (calls (main svc w)).
Proof.
  unfold main.
  destruct (__init__ w _ _ _ _ _ _ _) as [obj|] eqn:Hi; [|constructor].
  apply init_ok_config in Hi as Hcfg.
  assert (enable_pii_detection obj = false) as Dis.
  { unfold config_of in Hcfg. by simplify_eq. }
  unfold mbind, M_bind.
  destruct (initialize_trace svc false (mkState obj w [])) as (evs & Ht & Fe).
  destruct (initialize svc false (mkState obj w [])) as [[[]|e] st] eqn:Hinit;
    simpl in Ht.
  - destruct (initialize_ok svc false _ _ Hinit)
      as (store & _ & Hc & Hcfg').
    assert (enable_pii_detection (self st) = false) as Dis'.
    { unfold config_of in Hcfg'. simpl in Hcfg'. simplify_eq. congruence. }
    destruct (ask_all_run svc example_queries st _ Hc Dis') as (n & _ & Hn & _).
    assert (Forall (λ ev, is_findall ev = false)
              (trace (for_each example_queries (ask svc) tt st).2)) as Hall.
    { rewrite Hn, Ht. apply Forall_app. split.
      - eapply Forall_impl; [exact Fe|]. by intros ev [? _].
      - apply Forall_fmap, Forall_true. done. }
    by destruct (for_each example_queries _ tt st) as [[|] st'].
  - simpl. rewrite Ht. eapply Forall_impl; [exact Fe|]. by intros ev [? _].
Qed.

(** X15. When [main] ends with status 0, its calls are those of
    [initialize], none of them an invocation, followed by one invocation of
    the chain for each example query, in their order; the chain retrieves
    with [k = 4]. *)
Theorem main_asks_the_example_queries (svc : Services) (w : World) :
  exit_status (main svc w) = 0%Z →
  ∃ (chain : RetrievalQA) (evs : list event),
    calls (main svc w) = evs ++ (EvInvoke chain <$> example_queries) ∧
    Forall (λ ev, is_invoke ev = false) evs ∧
    search_k (qa_retriever chain) = 4%Z.
Proof.
  unfold main.
  destruct (__init__ w _ _ _ _ _ _ _) as [obj|] eqn:Hi; [|done].
  apply init_ok_config in Hi as Hcfg.
  unfold mbind, M_bind.
  destruct (initialize_trace svc false (mkState obj w [])) as (evs & Ht & Fe).
  destruct (initialize svc false (mkState obj w [])) as [[[]|e] st] eqn:Hinit;
    simpl in Ht; [|done].
  destruct (initialize_ok svc false _ _ Hinit)
    as (store & _ & Hc & Hcfg').
  assert (enable_pii_detection (self st) = false) as Dis.
  { unfold config_of in Hcfg, Hcfg'. simpl in Hcfg'. simplify_eq. congruence. }
  destruct (ask_all_run svc example_queries st _ Hc Dis) as (n & _ & Hn & Hok).
  destruct (for_each example_queries _ tt st) as [[u|] st'] eqn:Hloop;
    cbn [fst snd exit_status calls] in *; [|done].
  intros _. rewrite (Hok u eq_refl) in Hn. rewrite firstn_all in Hn.
  eexists _, evs. rewrite Hn, Ht. split; [reflexivity|]. split; [|done].
  eapply Forall_impl; [exact Fe|]. by intros ev [_ ?].
Qed.

Lemma main_asks_the_example_queries_witness :
  ∃ (chain : RetrievalQA) (evs : list event),
    calls (main stub main_world) = evs ++ (EvInvoke chain <$> example_queries) ∧
    Forall (λ ev, is_invoke ev = false) evs ∧
    search_k (qa_retriever chain) = 4%Z.
Proof.
  apply (main_asks_the_example_queries stub main_world).
  vm_compute. reflexivity.
Defined.

(** ** Characters a pattern cannot do without *)

Lemma in_alphabet c : c ∈ alphabet.
Proof.
  unfold alphabet. apply list_elem_of_fmap. exists (nat_of_ascii c).
  split; [by rewrite ascii_nat_embedding|].
  apply list_elem_of_In, in_seq. pose proof (nat_ascii_bounded c). lia.
Qed.

Lemma class_within_spec p accepts c :
  class_within p accepts = true → accepts c = true → p c = true.
Proof.
  unfold class_within. rewrite forallb_forall. intros H Hc.
  specialize (H c (proj1 (list_elem_of_In _ _) (in_alphabet c))).
  by rewrite Hc in H.
Qed.

Lemma elem_of_eat q st st' :
  st' ∈ eat q st →
  ∃ c, rest st = c :: rest st' ∧ q c = true.
Proof.
  unfold eat. destruct (rest st) as [|c s]; [by intros ?%elem_of_nil|].
  destruct (q c) eqn:Hq; [|by intros ?%elem_of_nil].
  intros ->%list_elem_of_singleton. by exists c.
Qed.

(** A match reads a prefix of the text it is given. *)
Lemma rep_match_reads (step : mstate → list mstate) fuel lo hi st st' :
  (∀ st0 st1, st1 ∈ step st0 → ∃ pre, rest st0 = pre ++ rest st1) →
  st' ∈ rep_match step fuel lo hi st →
  ∃ pre, rest st = pre ++ rest st'.
Proof.
  intros Hstep. revert lo hi st.
  induction fuel as [|fuel IH]; intros lo hi st; simpl.
  - destruct (lo =? 0); [|by intros ?%elem_of_nil].
    intros ->%list_elem_of_singleton. by exists [].
  - rewrite elem_of_app. intros [Hround|Hleave].
    + assert (∀ l, (∀ x, x ∈ l → x ∈ step st) →
                st' ∈ flat_map (rep_match step fuel (pred lo) (pred <$> hi)) l →
                ∃ pre, rest st = pre ++ rest st') as Hl.
      { intros l Hin (st1 & H1 & H2)%elem_of_flat_map.
        destruct (Hstep st st1 (Hin _ H1)) as [pre1 E1].
        destruct (IH _ _ _ H2) as [pre2 E2].
        exists (pre1 ++ pre2). by rewrite E1, E2, app_assoc. }
      destruct hi as [[|h]|]; [by apply elem_of_nil in Hround| |].
      * destruct (lo =? 0); (eapply Hl; [|exact Hround]); [|done].
        by intros x [_ ?]%list_elem_of_filter.
      * destruct (lo =? 0); (eapply Hl; [|exact Hround]); [|done].
        by intros x [_ ?]%list_elem_of_filter.
    + destruct (lo =? 0); [|by apply elem_of_nil in Hleave].
      apply list_elem_of_singleton in Hleave as ->. by exists [].
Qed.

Lemma rmatch_reads ci r st st' :
  st' ∈ rmatch ci r st → ∃ pre, rest st = pre ++ rest st'.
Proof.
  revert st st'.
  induction r as [|p|items| |r1 IH1 r2 IH2|r1 IH1 r2 IH2|lo hi r IH|r IH];
    intros st st'; simpl.
  - intros ->%list_elem_of_singleton. by exists [].
  - intros (c & E & _)%elem_of_eat. by exists [c].
  - intros (c & E & _)%elem_of_eat. by exists [c].
  - destruct (xorb _ _); [|by intros ?%elem_of_nil].
    intros ->%list_elem_of_singleton. by exists [].
  - intros (st1 & H1 & H2)%elem_of_flat_map.
    destruct (IH1 _ _ H1) as [pre1 E1]. destruct (IH2 _ _ H2) as [pre2 E2].
    exists (pre1 ++ pre2). by rewrite E1, E2, app_assoc.
  - intros [H|H]%elem_of_app; eauto.
  - apply rep_match_reads. intros st0 st1. apply IH.
  - intros (st1 & -> & H1)%list_elem_of_fmap. simpl. by apply IH.
Qed.

(** A match of a pattern that needs [p] reads a character satisfying [p]. *)
Lemma rmatch_needs p r st st' :
  needs p r = true →
  st' ∈ rmatch true r st →
  ∃ pre, rest st = pre ++ rest st' ∧ existsb p pre = true.
Proof.
  revert st st'.
  induction r as [|c|items| |r1 IH1 r2 IH2|r1 IH1 r2 IH2|lo hi r IH|r IH];
    intros st st'; cbn [needs rmatch]; try done.
  - intros Hn (c' & E & Hc)%elem_of_eat. exists [c']. split; [done|].
    simpl. by rewrite (class_within_spec _ _ c' Hn Hc).
  - intros Hn (c' & E & Hc)%elem_of_eat. exists [c']. split; [done|].
    simpl. by rewrite (class_within_spec _ _ c' Hn Hc).
  - intros Hn (st1 & H1 & H2)%elem_of_flat_map.
    apply orb_true_iff in Hn as [Hn|Hn].
    + destruct (IH1 _ _ Hn H1) as (pre1 & E1 & P1).
      destruct (rmatch_reads _ _ _ _ H2) as [pre2 E2].
      exists (pre1 ++ pre2). rewrite E1, E2, app_assoc. split; [done|].
      by rewrite existsb_app, P1.
    + destruct (rmatch_reads _ _ _ _ H1) as [pre1 E1].
      destruct (IH2 _ _ Hn H2) as (pre2 & E2 & P2).
      exists (pre1 ++ pre2). rewrite E1, E2, app_assoc. split; [done|].
      by rewrite existsb_app, P2, orb_true_r.
  - intros [Hn1 Hn2]%andb_true_iff [H|H]%elem_of_app; eauto.
  - intros [Hlo Hn]%andb_true_iff. apply Nat.ltb_lt in Hlo.
    destruct lo as [|lo]; [lia|].
    replace (S lo + length (rest st) + 1) with (S (lo + length (rest st) + 1))
      by lia.
    cbn [rep_match Nat.eqb]. rewrite app_nil_r.
    assert (st' ∈ flat_map
              (rep_match (rmatch true r) (lo + length (rest st) + 1)
                 (pred (S lo)) (pred <$> hi)) (rmatch true r st) →
            ∃ pre, rest st = pre ++ rest st' ∧ existsb p pre = true) as Hl.
    { intros (st1 & H1 & H2)%elem_of_flat_map.
      destruct (IH _ _ Hn H1) as (pre1 & E1 & P1).
      destruct (rep_match_reads (rmatch true r) _ _ _ _ _
                  (λ a b, rmatch_reads true r a b) H2) as [pre2 E2].
      exists (pre1 ++ pre2). rewrite E1, E2, app_assoc. split; [done|].
      by rewrite existsb_app, P1. }
    destruct hi as [[|h]|]; [by intros ?%elem_of_nil|exact Hl|exact Hl].
  - intros Hn (st1 & -> & H1)%list_elem_of_fmap. simpl. by apply IH.
Qed.

Lemma findall_from_position ci r fuel p s :
  findall_from ci r fuel p s ≠ [] →
  ∃ p' pre suf, s = pre ++ suf ∧ rmatch ci r (MState p' suf None) ≠ [].
Proof.
  revert p s. induction fuel as [|fuel IH]; intros p s; [done|].
  cbn [findall_from].
  destruct (rmatch ci r (MState p s None)) as [|st' l] eqn:Hm.
  - destruct s as [|c s]; [done|]. intros (p' & pre & suf & -> & H)%IH.
    by exists p', (c :: pre), suf.
  - intros _. exists p, [], s. split; [done|]. by rewrite Hm.
Qed.

Lemma hit_needs p r d :
  needs p r = true → hit r d = true → has_char p (page_content d) = true.
Proof.
  intros Hn. unfold hit, re_findall, has_char.
  destruct (findall_from true r _ None _) as [|m ms] eqn:Hf; [done|].
  intros _.
  destruct (findall_from_position true r _ None _
              (eq_ind_r (λ l, l ≠ []) (λ E, eq_ind (m :: ms)
                 (λ l, match l with [] => False | _ => True end) I [] E) Hf))
    as (p' & pre & suf & E & Hm).
  destruct (rmatch true r (MState p' suf None)) as [|st' l] eqn:Hr; [done|].
  destruct (rmatch_needs p r (MState p' suf None) st' Hn) as (pre2 & E2 & P2).
  { rewrite Hr. by left. }
  simpl in E2. rewrite E, E2, !existsb_app, P2. by rewrite orb_true_r.
Qed.
Ltac in_registry :=
  unfold patterns; repeat (apply elem_of_cons; first [by left | right]).

Lemma alert_needs p lr st docs alerts :
  lr ∈ patterns → needs p lr.2 = true →
  (scan_for_secrets docs st).1 = Ok alerts →
  (∀ d, d ∈ docs → has_char p (page_content d) = false) →
  alert lr.1 ∉ alerts.
Proof.
  intros Hlr Hn Hscan Hnone Hin.
  destruct (enable_pii_detection (self st)) eqn:En.
  - rewrite scan_enabled_run in Hscan by done. simpl in Hscan.
    injection Hscan as <-.
    apply elem_of_elements, elem_of_list_to_set in Hin.
    apply (alert_in_findings docs lr Hlr), existsb_hit in Hin
      as (d & Hd & Hh).
    apply (hit_needs p) in Hh; [|done]. by rewrite (Hnone d Hd) in Hh.
  - rewrite scan_disabled_run in Hscan by done. simpl in Hscan.
    injection Hscan as <-. by apply elem_of_nil in Hin.
Qed.

(** X16. Chunks without an at sign raise no Email Address alert: every
    match of the e-mail pattern reads one. *)
Theorem no_email_alert_without_at_sign (st : state) (docs : list Document)
    (alerts : list string) :
  (scan_for_secrets docs st).1 = Ok alerts →
  (∀ d, d ∈ docs →
     has_char (λ c, bool_decide (c = "@"%char)) (page_content d) = false) →
  "Email Address pattern detected in source chunk" ∉ alerts.
Proof.
  apply (alert_needs (λ c, bool_decide (c = "@"%char))
           ("Email Address", email_re)).
  - in_registry.
  - vm_compute. reflexivity.
Qed.

Lemma no_email_alert_without_at_sign_witness :
  "Email Address pattern detected in source chunk"
  ∉ ["Phone Number pattern detected in source chunk"].
Proof.
  apply (no_email_alert_without_at_sign (demo_state true)
           [mkDocument "no address here, call 555-123-4567" []]).
  - vm_compute. reflexivity.
  - intros d ->%list_elem_of_singleton. vm_compute. reflexivity.
Defined.

(** X17. Chunks without a decimal digit raise none of the SSN, Credit
    Card, Phone Number and IP Address alerts: every match of these patterns
    reads a digit. *)
Theorem no_numeric_alert_without_digit (st : state) (docs : list Document)
    (alerts : list string) :
  (scan_for_secrets docs st).1 = Ok alerts →
  (∀ d, d ∈ docs → has_char is_digit (page_content d) = false) →
  ("SSN pattern detected in source chunk" ∉ alerts) ∧
  ("Credit Card pattern detected in source chunk" ∉ alerts) ∧
  ("Phone Number pattern detected in source chunk" ∉ alerts) ∧
  ("IP Address pattern detected in source chunk" ∉ alerts).
Proof.
  intros Hscan Hnone. split; [|split; [|split]].
  - apply (alert_needs is_digit ("SSN", ssn_re) st docs);
      [in_registry|vm_compute; reflexivity|done|done].
  - apply (alert_needs is_digit ("Credit Card", credit_card_re) st docs);
      [in_registry|vm_compute; reflexivity|done|done].
  - apply (alert_needs is_digit ("Phone Number", phone_re) st docs);
      [in_registry|vm_compute; reflexivity|done|done].
  - apply (alert_needs is_digit ("IP Address", ip_re) st docs);
      [in_registry|vm_compute; reflexivity|done|done].
Qed.

Lemma no_numeric_alert_without_digit_witness :
  ("SSN pattern detected in source chunk"
   ∉ ["Email Address pattern detected in source chunk"]) ∧
  ("Credit Card pattern detected in source chunk"
   ∉ ["Email Address pattern detected in source chunk"]) ∧
  ("Phone Number pattern detected in source chunk"
   ∉ ["Email Address pattern detected in source chunk"]) ∧
  ("IP Address pattern detected in source chunk"
   ∉ ["Email Address pattern detected in source chunk"]).
Proof.
  apply (no_numeric_alert_without_digit (demo_state true) [email_doc]).
  - vm_compute. reflexivity.
  - intros d ->%list_elem_of_singleton. vm_compute. reflexivity.
Defined.

(** X18. However many chunks are scanned, [scan_for_secrets] returns at
    most seven alerts. *)
Theorem scan_at_most_seven_alerts (st : state) (docs : list Document) :
  ∃ alerts : list string,
    (scan_for_secrets docs st).1 = Ok alerts ∧ length alerts ≤ 7.
Proof.
  destruct (enable_pii_detection (self st)) eqn:En.
  - rewrite scan_enabled_run by done. eexists. split; [done|].
    change 7 with (length ((λ lr : string * regex, alert lr.1) <$> patterns)).
    apply submseteq_length, NoDup_submseteq; [apply NoDup_elements|].
    intros a Ha.
    apply elem_of_elements, elem_of_list_to_set, elem_of_all_findings in Ha
      as (d & lr & _ & Hlr & _ & ->).
    by apply (list_elem_of_fmap_2 (λ lr : string * regex, alert lr.1)).
  - rewrite scan_disabled_run by done. exists []. split; [done|]. simpl. lia.
Qed.

(* ================================================================== *)
(** * Part IV.  Properties of [setup.py] *)
(* ================================================================== *)

Ltac srun := unfold mbind, mret, Setup.Script_bind, Setup.Script_ret,
  Setup.path_exists, Setup.input, Setup.rmtree, Setup.run_checked,
  Setup.read_file, Setup.write_file, Setup.mkdir, Setup.log; simpl.

(** ** The environment file *)

(** X19. [setup_env_file] touches no path but ".env" and never changes an
    ".env" that exists: then it returns [True] and does nothing.  When it
    returns [True], ".env" exists; it returns [False], having changed
    nothing, only when neither ".env" nor ".env.example" exists; and when
    only the template exists, as a file, ".env" becomes a copy of it. *)
Theorem setup_env_file_only_creates_env (st : Setup.state) :
  let out := Setup.setup_env_file st in
  (∀ p, p ≠ ".env" → Setup.files out.2 !! p = Setup.files st !! p) ∧
  (is_Some (Setup.files st !! ".env") → out = (Ok true, st)) ∧
  (out.1 = Ok true → is_Some (Setup.files out.2 !! ".env")) ∧
  (out.1 = Ok false →
   out.2 = st ∧ Setup.files st !! ".env" = None ∧
   Setup.files st !! ".env.example" = None) ∧
  (∀ content, Setup.files st !! ".env" = None →
     Setup.files st !! ".env.example" = Some (Setup.File content) →
     out.1 = Ok true ∧
     Setup.files out.2 !! ".env" = Some (Setup.File content)).
Proof.
  intros out. subst out. unfold Setup.setup_env_file. srun.
  destruct (Setup.files st !! ".env") as [n|] eqn:Henv.
  - rewrite bool_decide_eq_true_2 by eauto. simpl.
    repeat split; try done.
  - rewrite bool_decide_eq_false_2 by (by intros [? ?]). simpl.
    destruct (Setup.files st !! ".env.example") as [[content|]|] eqn:Hex.
    + rewrite bool_decide_eq_true_2 by eauto. simpl.
      rewrite Hex. simpl. rewrite Henv. simpl.
      repeat split; try done.
      * intros p Hp. by rewrite lookup_insert_ne.
      * intros _. rewrite lookup_insert_eq. eauto.
      * rewrite lookup_insert_eq. congruence.
    + rewrite bool_decide_eq_true_2 by eauto. simpl. rewrite Hex. simpl.
      repeat split; done.
    + rewrite bool_decide_eq_false_2 by (by intros [? ?]). simpl.
      repeat split; done.
Qed.

(** ** The directories *)

Lemma make_missing_run (dirs : list string) (st : Setup.state) :
  ∃ st', Setup.make_missing dirs st = (Ok tt, st') ∧
    Setup.files st ⊆ Setup.files st' ∧
    Setup.answers st' = Setup.answers st ∧
    (∀ d, d ∈ dirs → is_Some (Setup.files st' !! d)) ∧
    ((∀ d, d ∈ dirs → is_Some (Setup.files st !! d)) → st' = st).
Proof.
  revert st. induction dirs as [|d dirs IH]; intros st.
  - exists st. simpl. srun. repeat split; try done.
    by intros d ?%elem_of_nil.
  - cbn [Setup.make_missing]. srun.
    destruct (Setup.files st !! d) as [n|] eqn:Hd.
    + rewrite bool_decide_eq_true_2 by eauto. simpl.
      destruct (IH st) as (st' & -> & Hsub & Ha & Hex & Hid).
      exists st'. repeat split; try done.
      * intros d' [->|Hd']%elem_of_cons; [|by apply Hex].
        eapply lookup_weaken_is_Some; [|exact Hsub]. eauto.
      * intros Hall. apply Hid. intros d' Hd'. apply Hall. by right.
    + rewrite bool_decide_eq_false_2 by (by intros [? ?]). simpl. rewrite Hd.
      destruct (IH (Setup.mkState (<[d:=Setup.Dir]> (Setup.files st))
                      (Setup.answers st) (Setup.trace st ++ [Setup.EvMkdir d])))
        as (st' & -> & Hsub & Ha & Hex & Hid).
      simpl in *. exists st'. repeat split; try done.
      * etrans; [|exact Hsub]. by apply insert_subseteq.
      * intros d' [->|Hd']%elem_of_cons; [|by apply Hex].
        eapply lookup_weaken_is_Some; [|exact Hsub].
        rewrite lookup_insert_eq. eauto.
      * intros Hall. destruct (Hall d) as [n Hn]; [by left|]. congruence.
Qed.

Lemma create_directories_run (st : Setup.state) :
  ∃ st' : Setup.state,
    Setup.create_directories st = (Ok true, st') ∧
    is_Some (Setup.files st' !! "data") ∧
    is_Some (Setup.files st' !! "vectorstore") ∧
    Setup.files st ⊆ Setup.files st' ∧
    Setup.answers st' = Setup.answers st ∧
    Setup.create_directories st' = (Ok true, st').
Proof.
  unfold Setup.create_directories.
  destruct (make_missing_run ["data"; "vectorstore"] st)
    as (st' & Hrun & Hsub & Ha & Hex & _).
  exists st'. unfold mbind, Setup.Script_bind at 1. rewrite Hrun.
  split; [done|]. split; [apply Hex; by left|].
  split; [apply Hex; right; by left|]. split; [done|]. split; [done|].
  destruct (make_missing_run ["data"; "vectorstore"] st')
    as (st'' & Hrun' & _ & _ & _ & Hid).
  unfold Setup.Script_bind. rewrite Hrun'. by rewrite (Hid Hex).
Qed.

(** X20. [create_directories] always returns [True]: afterwards "data" and
    "vectorstore" exist, every path that existed still holds what it held,
    and no answer has been read.  Run again, it changes nothing. *)
Theorem create_directories_ensures (st : Setup.state) :
  ∃ st' : Setup.state,
    Setup.create_directories st = (Ok true, st') ∧
    is_Some (Setup.files st' !! "data") ∧
    is_Some (Setup.files st' !! "vectorstore") ∧
    Setup.files st ⊆ Setup.files st' ∧
    Setup.answers st' = Setup.answers st ∧
    Setup.create_directories st' = (Ok true, st').
Proof. apply create_directories_run. Qed.

(** ** The virtual environment *)

(** X21. An existing "venv" is kept unless the answer to "Recreate it?"
    is y or Y: on any other answer [create_virtual_environment] returns
    [True] having removed nothing and started no process. *)
Theorem venv_kept_without_consent (sys : Setup.System) (st : Setup.state)
    (answer : string) (rest : list string) :
  is_Some (Setup.files st !! "venv") →
  Setup.answers st = answer :: rest →
  str_lower answer ≠ "y" →
  Setup.create_virtual_environment sys st
  = (Ok true,
     Setup.mkState (Setup.files st) rest
       (Setup.trace st ++ [Setup.EvInput "Recreate it? (y/n): "])).
Proof.
  intros Hv Ha Hn. unfold Setup.create_virtual_environment. srun.
  rewrite bool_decide_eq_true_2 by done. simpl. rewrite Ha. simpl.
  by rewrite bool_decide_eq_true_2.
Qed.

Lemma venv_kept_without_consent_witness :
  Setup.create_virtual_environment demo_system
    (Setup.mkState (<["venv" := Setup.Dir]> fresh_checkout) ["yes"] [])
  = (Ok true,
     Setup.mkState (<["venv" := Setup.Dir]> fresh_checkout) []
       ([] ++ [Setup.EvInput "Recreate it? (y/n): "])).
Proof.
  refine (venv_kept_without_consent demo_system
            (Setup.mkState (<["venv" := Setup.Dir]> fresh_checkout) ["yes"] [])
            "yes" [] _ _ _).
  - vm_compute. eauto.
  - reflexivity.
  - vm_compute. discriminate.
Defined.

(** ** The steps of [main] *)

(** X22. On a Python older than 3.8, [main] returns [False] at once: no
    answer is read, no process is started and no file is touched, and the
    script exits with status 1. *)
Theorem main_refuses_old_python (sys : Setup.System) (st : Setup.state)
    (major minor micro : Z) :
  Setup.version_info sys = (major, minor, micro) →
  (major < 3 ∨ (major = 3 ∧ minor < 8))%Z →
  Setup.main sys st = (Ok false, st) ∧ Setup.exit_status sys st = 1%Z.
Proof.
  intros Hv Hold.
  assert (Setup.check_python_version sys = false) as Hc.
  { unfold Setup.check_python_version. rewrite Hv.
    destruct Hold as [H|[-> H]].
    - by rewrite (proj2 (Z.ltb_lt _ _) H).
    - by rewrite (proj2 (Z.ltb_lt _ _) H). }
  assert (Setup.main sys st = (Ok false, st)) as Hm.
  { unfold Setup.main. by rewrite Hc. }
  split; [done|]. unfold Setup.exit_status. by rewrite Hm.
Qed.

Lemma main_refuses_old_python_witness :
  Setup.main old_system (Setup.mkState fresh_checkout [] [])
  = (Ok false, Setup.mkState fresh_checkout [] []) ∧
  Setup.exit_status old_system (Setup.mkState fresh_checkout [] []) = 1%Z.
Proof.
  apply (main_refuses_old_python old_system
           (Setup.mkState fresh_checkout [] []) 3 7 9); [reflexivity|lia].
Defined.

(** ** What the steps add to the trace *)

Lemma emits_ret {A} P (a : A) : emits P (mret a : Setup.Script A).
Proof. intros st. exists []. simpl. by rewrite app_nil_r. Qed.

Lemma emits_bind {A B} P (m : Setup.Script A) (k : A → Setup.Script B) :
  emits P m → (∀ a, emits P (k a)) → emits P (m ≫= k).
Proof.
  intros Hm Hk st. unfold mbind, Setup.Script_bind.
  destruct (Hm st) as (evs1 & E1 & F1).
  destruct (m st) as [[a|e] st1]; simpl in E1.
  - destruct (Hk a st1) as (evs2 & E2 & F2). exists (evs1 ++ evs2).
    rewrite E2, E1, app_assoc. split; [done|]. by apply Forall_app.
  - by exists evs1.
Qed.

Lemma emits_path_exists P p : emits P (Setup.path_exists p).
Proof. intros st. exists []. simpl. by rewrite app_nil_r. Qed.

Lemma emits_read_file P p : emits P (Setup.read_file p).
Proof.
  intros st. exists []. unfold Setup.read_file.
  destruct (Setup.files st !! p) as [[|]|]; simpl; by rewrite app_nil_r.
Qed.

Lemma emits_input (P : Setup.event → Prop) prompt :
  P (Setup.EvInput prompt) → emits P (Setup.input prompt).
Proof.
  intros HP st. exists [Setup.EvInput prompt]. unfold Setup.input.
  destruct (Setup.answers st); simpl; split; by repeat constructor.
Qed.

Lemma emits_rmtree (P : Setup.event → Prop) p :
  P (Setup.EvRmtree p) → emits P (Setup.rmtree p).
Proof.
  intros HP st. exists [Setup.EvRmtree p]. unfold Setup.rmtree.
  destruct (Setup.files st !! p) as [[|]|]; simpl; split; by repeat constructor.
Qed.

Lemma emits_run_checked (P : Setup.event → Prop) sys command :
  P (Setup.EvRun command) → emits P (Setup.run_checked sys command).
Proof.
  intros HP st. exists [Setup.EvRun command]. unfold Setup.run_checked.
  destruct (Setup.run_process sys command (Setup.files st)); simpl; split;
    by repeat constructor.
Qed.

Lemma emits_write_file (P : Setup.event → Prop) p content :
  P (Setup.EvWrite p) → emits P (Setup.write_file p content).
Proof.
  intros HP st. unfold Setup.write_file.
  destruct (Setup.files st !! p) as [[|]|]; simpl;
    first [ by exists [Setup.EvWrite p]; split; repeat constructor
          | exists []; by rewrite app_nil_r ].
Qed.

Lemma emits_weaken {A} (P Q : Setup.event → Prop) (m : Setup.Script A) :
  (∀ ev, P ev → Q ev) → emits P m → emits Q m.
Proof.
  intros HPQ Hm st. destruct (Hm st) as (evs & E & F). exists evs.
  split; [done|]. by eapply Forall_impl.
Qed.

Lemma emits_create_virtual_environment sys :
  emits early (Setup.create_virtual_environment sys).
Proof.
  unfold Setup.create_virtual_environment.
  apply emits_bind; [apply emits_path_exists|]. intros [|].
  - apply emits_bind; [by apply emits_input|]. intros answer. simpl.
    destruct (bool_decide _); [apply emits_ret|].
    apply emits_bind; [by apply emits_rmtree|]. intros _.
    by apply emits_run_checked.
  - by apply emits_run_checked.
Qed.


Lemma emits_setup_env_file : emits early Setup.setup_env_file.
Proof.
  unfold Setup.setup_env_file.
  apply emits_bind; [apply emits_path_exists|]. intros [|]; [apply emits_ret|].
  apply emits_bind; [apply emits_path_exists|]. intros [|]; simpl;
    [|apply emits_ret].
  apply emits_bind; [apply emits_read_file|]. intros content.
  apply emits_bind; [by apply emits_write_file|]. intros _. apply emits_ret.
Qed.

Lemma emits_trace_extends {A} P (m : Setup.Script A) st :
  emits P m → ∃ evs, Setup.trace (m st).2 = Setup.trace st ++ evs.
Proof. intros Hm. destruct (Hm st) as (evs & E & _). by exists evs. Qed.

Lemma create_directories_extends st :
  ∃ evs, Setup.trace (Setup.create_directories st).2 = Setup.trace st ++ evs.
Proof.
  unfold Setup.create_directories.
  assert (emits (λ _, True) (Setup.make_missing ["data"; "vectorstore"])) as H.
  { generalize ["data"; "vectorstore"] as dirs.
    induction dirs as [|d dirs IH]; [apply emits_ret|].
    cbn [Setup.make_missing].
    apply emits_bind; [apply emits_path_exists|]. intros b.
    apply emits_bind; [|intros _; apply IH].
    destruct (negb b); [|apply emits_ret].
    intros st0. unfold Setup.mkdir.
    destruct (Setup.files st0 !! d); simpl;
      first [ by exists [Setup.EvMkdir d]; split; repeat constructor
            | exists []; by rewrite app_nil_r ]. }
  apply (emits_trace_extends (λ _, True)).
  apply emits_bind; [exact H|]. intros _. apply emits_ret.
Qed.



(** X24. [main] returns [True] only on a Python 3.8 or later and after
    "pip install -r requirements.txt", run with the pip of the virtual
    environment, has exited with status 0; the attempt to install reportlab
    is then in the trace, whatever its outcome. *)
Theorem main_true_after_install (sys : Setup.System) (st st' : Setup.state) :
  Setup.main sys st = (Ok true, st') →
  Setup.check_python_version sys = true ∧
  (∃ fs fs', Setup.run_process sys
               [Setup.get_pip_command sys; "install"; "-r"; "requirements.txt"]
               fs = Setup.Exited 0 fs') ∧
  ∃ evs : list Setup.event,
    Setup.trace st' = Setup.trace st ++ evs ∧
    Setup.EvRun [Setup.get_pip_command sys; "install"; "-r"; "requirements.txt"]
    ∈ evs ∧
    Setup.EvRun [Setup.get_pip_command sys; "install"; "reportlab"] ∈ evs.
Proof.
  unfold Setup.main.
  destruct (Setup.check_python_version sys); simpl; [|done].
  unfold mbind, Setup.Script_bind.
  destruct (emits_create_virtual_environment sys st) as (evs1 & E1 & _).
  destruct (Setup.create_virtual_environment sys st) as [[[|]|e1] st1];
    simpl in E1; [|done|done].
  simpl. unfold Setup.install_dependencies, Setup.run_checked at 1.
  destruct (Setup.run_process sys _ (Setup.files st1)) as [status fs2|e2] eqn:Hrun;
    [|done].
  destruct (bool_decide (status = 0%Z)) eqn:Hstatus; simpl; [|done].
  apply bool_decide_eq_true in Hstatus as ->.
  destruct (emits_setup_env_file
              (Setup.mkState fs2 (Setup.answers st1)
                 (Setup.trace st1 ++ [Setup.EvRun
                    [Setup.get_pip_command sys; "install"; "-r";
                     "requirements.txt"]]))) as (evs3 & E3 & _).
  destruct (Setup.setup_env_file _) as [[[|]|e3] st3];
    simpl in E3; simpl; [|done|done].
  destruct (create_directories_extends st3) as (evs4 & E4).
  destruct (create_directories_run st3) as (st4 & Hd & _).
  rewrite Hd in E4 |- *. simpl in E4. simpl.
  unfold Setup.run_checked at 1.
  assert (∃ b st5, Setup.run_checked sys
                     [Setup.get_pip_command sys; "install"; "reportlab"] st4
                   = (b, st5) ∧
                   Setup.trace st5
                   = Setup.trace st4
                     ++ [Setup.EvRun
                           [Setup.get_pip_command sys; "install"; "reportlab"]])
    as (b5 & st5 & H5 & E5).
  { unfold Setup.run_checked.
    destruct (Setup.run_process sys _ (Setup.files st4)); by eexists _, _. }
  fold (Setup.run_checked sys
          [Setup.get_pip_command sys; "install"; "reportlab"] st4).
  rewrite H5. destruct b5 as [b5|e5]; [|done].
  assert (emits (λ _, True) (Setup.generate_sample_pdf sys)) as Hg.
  { unfold Setup.generate_sample_pdf.
    apply emits_bind; [apply emits_path_exists|]. intros [|].
    - apply emits_bind; [by apply emits_input|]. intros answer. simpl.
      destruct (bool_decide _); [apply emits_ret|by apply emits_run_checked].
    - by apply emits_run_checked. }
  destruct (Hg st5) as (evs6 & E6 & _).
  destruct (Setup.generate_sample_pdf sys st5) as [[b6|e6] st6];
    simpl in E6; [|done].
  intros [= <-]. split; [done|]. split; [by eexists _, _|].
  eexists. rewrite E6, E5, E4, E3, E1. rewrite <- !app_assoc.
  split; [reflexivity|]. split.
  - apply elem_of_app. right. apply elem_of_app. left. by left.
  - do 4 (apply elem_of_app; right). apply elem_of_app. left. by left.
Qed.

Lemma main_true_after_install_witness :
  Setup.check_python_version demo_system = true ∧
  (∃ fs fs', Setup.run_process demo_system
               [Setup.get_pip_command demo_system; "install"; "-r";
                "requirements.txt"] fs = Setup.Exited 0 fs') ∧
  ∃ evs : list Setup.event,
    Setup.trace (Setup.main demo_system
                   (Setup.mkState fresh_checkout [] [])).2
    = Setup.trace (Setup.mkState fresh_checkout [] []) ++ evs ∧
    Setup.EvRun [Setup.get_pip_command demo_system; "install"; "-r";
                 "requirements.txt"] ∈ evs ∧
    Setup.EvRun [Setup.get_pip_command demo_system; "install"; "reportlab"]
    ∈ evs.
Proof.
  apply (main_true_after_install demo_system
           (Setup.mkState fresh_checkout [] [])).
  vm_compute. reflexivity.
Defined.

(** ** The sample document *)

(** X25. Whatever the platform, the only process [generate_sample_pdf]
    starts is the interpreter of the virtual environment on
    "generate_sample_pdf.py": "venv\Scripts\python" on "win32" and
    "venv/bin/python" elsewhere, the path of pip with its last component
    replaced.  Besides that it only asks whether to regenerate. *)
Theorem generate_sample_pdf_uses_venv_python (sys : Setup.System) :
  emits (λ ev,
           ev = Setup.EvInput "Regenerate it? (y/n): " ∨
           ev = Setup.EvRun
                  [ if bool_decide (Setup.platform sys = "win32")
                    then "venv\Scripts\python" else "venv/bin/python";
                    "generate_sample_pdf.py" ])
    (Setup.generate_sample_pdf sys).
Proof.
  unfold Setup.generate_sample_pdf.
  assert (Setup.replace "\pip" "\python"
            (Setup.replace "/pip" "/python" (Setup.get_pip_command sys))
          = if bool_decide (Setup.platform sys = "win32")
            then "venv\Scripts\python" else "venv/bin/python") as ->.
  { unfold Setup.get_pip_command.
    by destruct (bool_decide (Setup.platform sys = "win32")). }
  apply emits_bind; [apply emits_path_exists|]. intros [|].
  - apply emits_bind; [apply emits_input; by left|]. intros answer. simpl.
    destruct (bool_decide (str_lower answer ≠ "y")); [apply emits_ret|].
    apply emits_run_checked. by right.
  - apply emits_run_checked. by right.
Qed.
